(** * ModSlayer: the mod registry, the installer and the path catalog

    A shallow embedding of [src/mod_manager.py] (class [ModManager]): the
    list [mods_data] of mod records with its JSON store, the copy of mod
    payloads into the mods folder, and the recent/favourite path lists with
    their INI store.  The widgets are left out; what a method shows to the
    user (status line, message box, uncaught exception) is its [outcome]. *)

From Stdlib Require Import ZArith String Ascii List Lia Permutation.
From stdpp Require Import base option list gmap strings fin_maps.
Import ListNotations.

Local Open Scope string_scope.
Local Open Scope list_scope.

(** ** Python string helpers used by the source *)

(** A character of a [string] stands for the Unicode code point of the
    same number: the strings of the model are the Python strings whose
    code points are below 256. *)

Module PyStr.

(** [str.split(sep)] for a one-character separator. *)
Fixpoint split (sep : ascii) (s : string) : list string :=
  match s with
  | EmptyString => [EmptyString]
  | String c s' =>
      if Ascii.eqb c sep then EmptyString :: split sep s'
      else match split sep s' with
           | w :: ws => String c w :: ws
           | [] => [String c EmptyString]
           end
  end.

(** [sep.join(parts)]. *)
Definition join (sep : string) (parts : list string) : string :=
  String.concat sep parts.

(** White space as [str.strip()] sees it, among the code points below
    256: the ASCII ones, U+0085 and U+00A0. *)
Definition is_space (c : ascii) : bool :=
  let n := nat_of_ascii c in
  ((9 <=? n)%nat && (n <=? 13)%nat) || ((28 <=? n)%nat && (n <=? 32)%nat)
  || (n =? 133)%nat || (n =? 160)%nat.

Fixpoint lstrip (s : string) : string :=
  match s with
  | EmptyString => EmptyString
  | String c s' => if is_space c then lstrip s' else s
  end.

Fixpoint rstrip (s : string) : string :=
  match s with
  | EmptyString => EmptyString
  | String c s' =>
      match rstrip s' with
      | EmptyString => if is_space c then EmptyString else String c EmptyString
      | r => String c r
      end
  end.

Definition strip (s : string) : string := rstrip (lstrip s).

(** Truthiness of a string: [if s:]. *)
Definition truthy (s : string) : bool :=
  match s with EmptyString => false | _ => true end.

Fixpoint contains (c : ascii) (s : string) : bool :=
  match s with
  | EmptyString => false
  | String d s' => Ascii.eqb d c || contains c s'
  end.

(** [s.rfind(c)]: index of the last occurrence, [-1] when there is none. *)
Fixpoint rfind (c : ascii) (s : string) : Z :=
  match s with
  | EmptyString => (-1)%Z
  | String d s' =>
      let r := rfind c s' in
      if (0 <=? r)%Z then (r + 1)%Z
      else if Ascii.eqb d c then 0%Z else (-1)%Z
  end.

(** [s[i:j]] for [0 <= i <= j]. *)
Definition slice (i j : Z) (s : string) : string :=
  String.substring (Z.to_nat i) (Z.to_nat (j - i)) s.

Definition slice_from (i : Z) (s : string) : string :=
  String.substring (Z.to_nat i) (String.length s - Z.to_nat i) s.

(** [posixpath.basename]: what follows the last ['/']. *)
Definition basename (p : string) : string :=
  slice_from (rfind "/" p + 1) p.

(** [posixpath.splitext]: split at the last dot of the last component,
    leading dots of that component not counting. *)
Definition splitext (p : string) : string * string :=
  let sepIndex := rfind "/" p in
  let dotIndex := rfind "." p in
  if (sepIndex <? dotIndex)%Z then
    let stem := slice (sepIndex + 1) dotIndex p in
    if forallb (Ascii.eqb ".") (list_ascii_of_string stem)
    then (p, EmptyString)
    else (slice 0 dotIndex p, slice_from dotIndex p)
  else (p, EmptyString).

End PyStr.

(** ** More Python string and path helpers *)

Module PyOs.

(** [sub in s]. *)
Fixpoint contains_str (sub s : string) : bool :=
  String.prefix sub s
  || match s with
     | EmptyString => false
     | String _ s' => contains_str sub s'
     end.

(** [s.split(sep)] for a separator of one character or more: the
    occurrences of [sep] are taken from left to right without overlap;
    [skip] counts the characters of a matched separator still to drop. *)
Fixpoint split_from (sep : string) (skip : nat) (s : string) : list string :=
  match s with
  | EmptyString => [EmptyString]
  | String c s' =>
      match skip with
      | S k => split_from sep k s'
      | O =>
          if String.prefix sep s
          then EmptyString :: split_from sep (String.length sep - 1) s'
          else match split_from sep 0 s' with
               | w :: ws => String c w :: ws
               | [] => [String c EmptyString]
               end
      end
  end.

Definition split_str (sep s : string) : list string := split_from sep 0 s.

(** [c.lower()] for a code point below 256: the ASCII capitals and the
    Latin-1 capitals U+00C0 to U+00DE, the sign U+00D7 apart. *)
Definition lower_char (c : ascii) : ascii :=
  let n := nat_of_ascii c in
  if ((65 <=? n)%nat && (n <=? 90)%nat
      || (192 <=? n)%nat && (n <=? 222)%nat && negb (n =? 215)%nat)%bool
  then ascii_of_nat (n + 32) else c.

(** [s.lower()]. *)
Fixpoint lower (s : string) : string :=
  match s with
  | EmptyString => EmptyString
  | String c s' => String (lower_char c) (lower s')
  end.

(** [s.endswith(suffix)]: some tail of [s] is [suffix]. *)
Fixpoint endswith (suffix s : string) : bool :=
  String.eqb s suffix
  || match s with
     | EmptyString => false
     | String _ s' => endswith suffix s'
     end.

Definition startswith (p s : string) : bool := String.prefix p s.

(** [posixpath.join(a, b)]. *)
Definition join (a b : string) : string :=
  if startswith "/" b then b
  else if (negb (PyStr.truthy a) || endswith "/" a)%bool then a +:+ b
  else a +:+ "/" +:+ b.

(** [s.rstrip('/')]. *)
Fixpoint rstrip_slash (s : string) : string :=
  match s with
  | EmptyString => EmptyString
  | String c s' =>
      match rstrip_slash s' with
      | EmptyString =>
          if Ascii.eqb c "/" then EmptyString else String c EmptyString
      | r => String c r
      end
  end.

(** [posixpath.dirname]: up to the last ['/'], trailing slashes dropped
    unless nothing else is left. *)
Definition dirname (p : string) : string :=
  let i := (PyStr.rfind "/" p + 1)%Z in
  let head := PyStr.slice 0 i p in
  if (PyStr.truthy head
      && negb (forallb (Ascii.eqb "/") (list_ascii_of_string head)))%bool
  then rstrip_slash head else head.

End PyOs.

(** ** Data model *)

(** One entry of [mods_data]: the dict built by [install_mod_file] and
    [install_mod_folder].  [type] is the string ['file'] or ['folder']. *)
Record mod_data := Mod {
  id : Z;
  name : string;
  file_path : string;
  original_path : string;
  enabled : bool;
  priority : Z;
  type : string
}.

Definition set_priority (p : Z) (m : mod_data) : mod_data :=
  Mod (id m) (name m) (file_path m) (original_path m) (enabled m) p (type m).

Definition set_enabled (b : bool) (m : mod_data) : mod_data :=
  Mod (id m) (name m) (file_path m) (original_path m) b (priority m) (type m).

(** What lies under one name of the mods folder: a copied file or a copied
    tree, whole or cut short by a failed copy. *)
Inductive payload :=
| FileCopy (src : string) (whole : bool)
| TreeCopy (src : string) (whole : bool).

(** Content of [mods_data.json]. *)
Inductive json_file :=
| JsonAbsent
| JsonCorrupt
| JsonDoc (records : list mod_data).

(** [recent_paths] has the keys ['game'], ['mods'], ['files'];
    [favorites] has ['game'] and ['mods']. *)
Inductive path_type := game | mods | files.

Record recent := Recent {
  recent_game : list string;
  recent_mods : list string;
  recent_files : list string
}.

Record favs := Favs {
  fav_game : list string;
  fav_mods : list string
}.

(** A parsed INI document: section name to (option name to value). *)
Abbreviation ini := (gmap string (gmap string string)).

(** The fields of a [ModManager] together with the files it owns: the
    two stores and the content of the mods folder, keyed by the name
    relative to [mods_folder]. *)
Record state := State {
  game_path : string;
  mods_folder : string;
  mods_data : list mod_data;
  recent_paths : recent;
  favorites : favs;
  config_file : option ini;
  mods_file : json_file;
  disk : gmap string payload
}.

Definition max_recent_items : nat := 10.

Definition set_mods_data (l : list mod_data) (st : state) : state :=
  State (game_path st) (mods_folder st) l (recent_paths st) (favorites st)
        (config_file st) (mods_file st) (disk st).

Definition set_mods_file (f : json_file) (st : state) : state :=
  State (game_path st) (mods_folder st) (mods_data st) (recent_paths st)
        (favorites st) (config_file st) f (disk st).

Definition set_disk (d : gmap string payload) (st : state) : state :=
  State (game_path st) (mods_folder st) (mods_data st) (recent_paths st)
        (favorites st) (config_file st) (mods_file st) d.

Definition set_recent_paths (r : recent) (st : state) : state :=
  State (game_path st) (mods_folder st) (mods_data st) r (favorites st)
        (config_file st) (mods_file st) (disk st).

Definition set_favorites (f : favs) (st : state) : state :=
  State (game_path st) (mods_folder st) (mods_data st) (recent_paths st) f
        (config_file st) (mods_file st) (disk st).

Definition set_config_file (c : option ini) (st : state) : state :=
  State (game_path st) (mods_folder st) (mods_data st) (recent_paths st)
        (favorites st) c (mods_file st) (disk st).

Definition set_paths (g m : string) (st : state) : state :=
  State g m (mods_data st) (recent_paths st) (favorites st)
        (config_file st) (mods_file st) (disk st).

(** ** The environment of one call *)

Inductive copy_outcome := CopyOk | CopyFailsEarly | CopyFailsPartway.

Inductive write_outcome := WriteOk | WriteFailsOpen | WriteFailsPartway.

(** What happens around one method call: what [os.path.exists] answers
    for a path; how the copy ends; whether the payload can be deleted; how
    writing [mods_data.json] ends; whether [save_config] completes (the
    parser takes the values and the file is written); what a failing
    [rmtree] leaves of the mods folder when it had already removed
    something ([None]: nothing removed); what the INI file holds after a
    [save_config] that failed with the file already opened ([None]: the
    file was not touched). *)
Record env := Env {
  path_exists : string -> bool;
  copy_result : copy_outcome;
  delete_ok : bool;
  mods_write : write_outcome;
  config_write_ok : bool;
  rmtree_leaves : option (gmap string payload);
  config_cut : option ini
}.

(** ** Exceptions and what the user sees *)

Inductive exn :=
| CopyError
| FileExistsError
| DeleteError
| WriteError
| UnboundLocalError.

Inductive outcome :=
| Status (msg : string)
| Warning (msg : string)
| ErrorBox (e : exn)
| Uncaught (e : exn)
| Nothing.

Definition failed (o : outcome) : bool :=
  match o with
  | ErrorBox _ | Uncaught _ => true
  | _ => false
  end.

(** State and exception monad of the method bodies. *)
Definition M (A : Type) : Type := state -> state * (exn + A).

Definition ret {A} (a : A) : M A := fun st => (st, inr a).

Definition raise {A} (e : exn) : M A := fun st => (st, inl e).

Definition bind {A B} (m : M A) (k : A -> M B) : M B :=
  fun st =>
    match m st with
    | (st', inl e) => (st', inl e)
    | (st', inr a) => k a st'
    end.

Definition get : M state := fun st => (st, inr st).

Definition modify (f : state -> state) : M unit := fun st => (f st, inr tt).

#[global] Instance M_ret : MRet M := @ret.

#[global] Instance M_bind : MBind M := fun A B k m => bind m k.

(** [try: body  except Exception as e: messagebox.showerror(...)]. *)
Definition try_except (body : M outcome) : state -> state * outcome :=
  fun st =>
    match body st with
    | (st', inl e) => (st', ErrorBox e)
    | (st', inr o) => (st', o)
    end.

(** A method body without handler: the exception leaves the method. *)
Definition no_handler (body : M outcome) : state -> state * outcome :=
  fun st =>
    match body st with
    | (st', inl e) => (st', Uncaught e)
    | (st', inr o) => (st', o)
    end.

(** ** The JSON store of the registry *)

(** [save_mods_data]: [open(mods_file, 'w')] then [json.dump].  A dump cut
    short leaves a prefix of the document, which is not JSON. *)
Definition save_mods_data (e : env) : M unit :=
  fun st =>
    match mods_write e with
    | WriteOk => (set_mods_file (JsonDoc (mods_data st)) st, inr tt)
    | WriteFailsOpen => (st, inl WriteError)
    | WriteFailsPartway => (set_mods_file JsonCorrupt st, inl WriteError)
    end.

(** [load_mods_data]: an absent or undecodable file is an empty registry. *)
Definition load_mods_data (st : state) : state :=
  match mods_file st with
  | JsonDoc records => set_mods_data records st
  | JsonCorrupt => set_mods_data [] st
  | JsonAbsent => set_mods_data [] st
  end.

(** ** The mods folder *)

(** What [os.path.join(mods_folder, rel)] names.  The empty relative name
    is the mods folder itself, taken to exist. *)
Definition payload_at (st : state) (rel : string) : option payload :=
  match rel with
  | EmptyString => Some (TreeCopy EmptyString true)
  | _ => disk st !! rel
  end.

(** [shutil.copy2(src, join(mods_folder, dest))]: an existing file is
    overwritten; when the destination is a directory the file lands inside
    it; a copy that fails partway leaves what was written. *)
Definition copy2 (e : env) (src dest : string) : M unit :=
  fun st =>
    match copy_result e with
    | CopyFailsEarly => (st, inl CopyError)
    | CopyOk =>
        match payload_at st dest with
        | Some (TreeCopy _ _) => (st, inr tt)
        | _ => (set_disk (<[dest := FileCopy src true]> (disk st)) st, inr tt)
        end
    | CopyFailsPartway =>
        match payload_at st dest with
        | Some (TreeCopy _ _) => (st, inl CopyError)
        | _ => (set_disk (<[dest := FileCopy src false]> (disk st)) st,
                inl CopyError)
        end
    end.

(** [shutil.copytree(src, join(mods_folder, dest))]: the source is
    listed first, then an existing destination is refused; a copy that
    fails partway leaves the tree copied so far. *)
Definition copytree (e : env) (src dest : string) : M unit :=
  fun st =>
    match copy_result e with
    | CopyFailsEarly => (st, inl CopyError)
    | CopyOk =>
        match payload_at st dest with
        | Some _ => (st, inl FileExistsError)
        | None =>
            (set_disk (<[dest := TreeCopy src true]> (disk st)) st, inr tt)
        end
    | CopyFailsPartway =>
        match payload_at st dest with
        | Some _ => (st, inl FileExistsError)
        | None =>
            (set_disk (<[dest := TreeCopy src false]> (disk st)) st,
             inl CopyError)
        end
    end.

(** Deleting [rel] from the mods folder; deleting the folder itself
    empties it. *)
Definition unlink (rel : string) (st : state) : state :=
  match rel with
  | EmptyString => set_disk ∅ st
  | _ => set_disk (delete rel (disk st)) st
  end.

(** [shutil.rmtree]: the target must be a directory; a failure may come
    after part of the tree is gone. *)
Definition rmtree (e : env) (rel : string) : M unit :=
  fun st =>
    match payload_at st rel with
    | Some (TreeCopy _ _) =>
        if delete_ok e then (unlink rel st, inr tt)
        else match rmtree_leaves e with
             | Some d => (set_disk d st, inl DeleteError)
             | None => (st, inl DeleteError)
             end
    | _ => (st, inl DeleteError)
    end.

(** [os.remove]: the target must be a file. *)
Definition os_remove (e : env) (rel : string) : M unit :=
  fun st =>
    match payload_at st rel with
    | Some (FileCopy _ _) =>
        if delete_ok e then (unlink rel st, inr tt) else (st, inl DeleteError)
    | _ => (st, inl DeleteError)
    end.

(** ** Registry operations *)

(** The loop [for i, mod in enumerate(mods_data): if mod['name'] ==
    mod_name: ... break]: the first entry with that name, with its index. *)
Definition find_mod (mod_name : string) (l : list mod_data)
  : option (nat * mod_data) :=
  list_find (fun m => name m = mod_name) l.

(** [for i, mod in enumerate(mods_data): mod['priority'] = i]. *)
Definition renumber (l : list mod_data) : list mod_data :=
  imap (fun i m => set_priority (Z.of_nat i) m) l.

(** [l[i], l[j] = l[j], l[i]] for indices in range. *)
Definition swap (i j : nat) (l : list mod_data) : list mod_data :=
  match l !! i, l !! j with
  | Some x, Some y => <[j := x]> (<[i := y]> l)
  | _, _ => l
  end.

Definition quoted (s : string) : string := "'" ++ s ++ "'".

(** The entry [install_mod_file] creates when the registry holds [count]
    entries. *)
Definition file_entry (count : nat) (file_path : string) : mod_data :=
  let filename := PyStr.basename file_path in
  let mod_name := fst (PyStr.splitext filename) in
  {| id := Z.of_nat count;
     name := mod_name;
     file_path := filename;
     original_path := file_path;
     enabled := true;
     priority := Z.of_nat count;
     type := "file" |}.

(** The entry [install_mod_folder] creates. *)
Definition folder_entry (count : nat) (folder_path : string) : mod_data :=
  let folder_name := PyStr.basename folder_path in
  {| id := Z.of_nat count;
     name := folder_name;
     file_path := folder_name;
     original_path := folder_path;
     enabled := true;
     priority := Z.of_nat count;
     type := "folder" |}.

Definition install_mod_file (e : env) (file_path : string)
  : state -> state * outcome :=
  try_except (
    let filename := PyStr.basename file_path in
    let mod_name := fst (PyStr.splitext filename) in
    st ← get;
    let mod_data := file_entry (length (mods_data st)) file_path in
    copy2 e file_path filename;;
    modify (fun s => set_mods_data (mods_data s ++ [mod_data]) s);;
    save_mods_data e;;
    mret (Status ("Mod " ++ quoted mod_name ++ " added successfully!"))).

Definition install_mod_folder (e : env) (folder_path : string)
  : state -> state * outcome :=
  try_except (
    let folder_name := PyStr.basename folder_path in
    st ← get;
    let mod_data := folder_entry (length (mods_data st)) folder_path in
    copytree e folder_path folder_name;;
    modify (fun s => set_mods_data (mods_data s ++ [mod_data]) s);;
    save_mods_data e;;
    mret (Status ("Mod " ++ quoted folder_name ++ " added successfully!"))).

(** [mod_path = os.path.join(self.mods_folder, mod['file_path'])]. *)
Definition mod_path (st : state) (rel : string) : string :=
  PyOs.join (mods_folder st) rel.

(** [os.path.exists(mod_path)]: true when the payload is there and the
    system lets it be seen. *)
Definition mod_path_exists (e : env) (st : state) (rel : string) : bool :=
  bool_decide (is_Some (payload_at st rel)) && path_exists e (mod_path st rel).

(** The deletion step of [remove_mod]: [if os.path.exists(mod_path):]
    [rmtree] for a ['folder'] entry, [os.remove] otherwise. *)
Definition remove_payload (e : env) (m : mod_data) : M unit :=
  st ← get;
  if mod_path_exists e st (file_path m) then
    if String.eqb (type m) "folder"
    then rmtree e (file_path m)
    else os_remove e (file_path m)
  else mret tt.

(** [remove_mod]: [selection] is the text of the selected tree item (the
    mod's name), [confirm] the answer to the yes/no box. *)
Definition remove_mod (e : env) (selection : option string) (confirm : bool)
  : state -> state * outcome :=
  match selection with
  | None => fun st => (st, Warning "Please select a mod to remove!")
  | Some mod_name =>
      if confirm then
        try_except (
          st ← get;
          match find_mod mod_name (mods_data st) with
          | Some (mod_index, m) =>
              remove_payload e m;;
              modify (fun s => set_mods_data (delete mod_index (mods_data s)) s);;
              modify (fun s => set_mods_data (renumber (mods_data s)) s);;
              save_mods_data e;;
              mret (Status ("Mod " ++ quoted mod_name ++ " removed successfully!"))
          | None => mret Nothing
          end)
      else fun st => (st, Nothing)
  end.

(** The loop of [toggle_mod]: flip [enabled] of the first entry with that
    name.  The result also gives the loop variable [mod] as it is after
    the loop: the entry found, else the last entry, else unbound. *)
Definition toggle_first (mod_name : string) (l : list mod_data)
  : list mod_data * option mod_data :=
  match find_mod mod_name l with
  | Some (i, m) =>
      let m' := set_enabled (negb (enabled m)) m in
      (<[i := m']> l, Some m')
  | None => (l, last l)
  end.

Definition toggle_mod (e : env) (selection : option string)
  : state -> state * outcome :=
  match selection with
  | None => fun st => (st, Warning "Please select a mod to enable/disable!")
  | Some mod_name =>
      no_handler (
        st ← get;
        let '(l, loop_var) := toggle_first mod_name (mods_data st) in
        modify (set_mods_data l);;
        save_mods_data e;;
        match loop_var with
        | Some m =>
            let status := if enabled m then "enabled" else "disabled" in
            mret (Status ("Mod " ++ quoted mod_name ++ " " ++ status ++ "!"))
        | None => raise UnboundLocalError
        end)
  end.

Definition move_mod (e : env) (selection : option string) (direction : Z)
  : state -> state * outcome :=
  match selection with
  | None => fun st => (st, Warning "Please select a mod to move!")
  | Some mod_name =>
      no_handler (
        st ← get;
        match find_mod mod_name (mods_data st) with
        | Some (mod_index, _) =>
            let new_index := (Z.of_nat mod_index + direction)%Z in
            if ((0 <=? new_index)%Z
                && (new_index <? Z.of_nat (length (mods_data st)))%Z)%bool
            then
              modify (fun s =>
                set_mods_data (swap mod_index (Z.to_nat new_index) (mods_data s)) s);;
              modify (fun s => set_mods_data (renumber (mods_data s)) s);;
              save_mods_data e;;
              let direction_text :=
                if (direction =? -1)%Z then "up" else "down" in
              mret (Status ("Moved " ++ quoted mod_name ++ " " ++ direction_text ++ "!"))
            else mret Nothing
        | None => mret Nothing
        end)
  end.

Definition move_mod_up (e : env) (selection : option string) :=
  move_mod e selection (-1).

Definition move_mod_down (e : env) (selection : option string) :=
  move_mod e selection 1.

(** [sorted(mods_data, key=lambda x: x['priority'])]: the stable sort, as
    insertion from the right. *)
Fixpoint insert_sorted (m : mod_data) (l : list mod_data) : list mod_data :=
  match l with
  | [] => [m]
  | x :: l' =>
      if (priority m <=? priority x)%Z then m :: l
      else x :: insert_sorted m l'
  end.

Definition sorted_mods (l : list mod_data) : list mod_data :=
  foldr insert_sorted [] l.

(** One row of the tree widget: text and the three column values. *)
Record tree_row := Row {
  row_text : string;
  row_path : string;
  row_status : string;
  row_priority : Z
}.

Definition row_of (m : mod_data) : tree_row :=
  Row (name m) (file_path m)
      (if enabled m then "Enabled" else "Disabled") (priority m).

(** [refresh_mod_list]: the rows shown, top to bottom. *)
Definition refresh_mod_list (st : state) : list tree_row :=
  map row_of (sorted_mods (mods_data st)).

(** ** The INI store of the path catalog *)

(** [config.get(section, option, fallback=...)].  [configparser] hands a
    stored value back with the white space around it stripped.  Its
    [%]-interpolation and multi-line values are not modelled: a stored
    value with a ['%'] or a line break in it is read back here as it was
    stored. *)
Definition config_get (c : ini) (section option fallback : string) : string :=
  match c !! section with
  | Some s =>
      match s !! option with
      | Some v => PyStr.strip v
      | None => fallback
      end
  | None => fallback
  end.

Definition has_section (c : ini) (section : string) : bool :=
  bool_decide (is_Some (c !! section)).

(** [[p.strip() for p in s.split('|') if p.strip()]]. *)
Definition parse_paths (s : string) : list string :=
  filter (fun p => PyStr.truthy p = true) (map PyStr.strip (PyStr.split "|" s)).

(** One turn of the loops of [load_config]: the stored list replaces the
    current one only when the stored string is not empty. *)
Definition load_list (c : ini) (section option : string)
    (current : list string) : list string :=
  let paths_str := config_get c section option "" in
  if PyStr.truthy paths_str then parse_paths paths_str else current.

Definition load_config (st : state) : state :=
  match config_file st with
  | None => st
  | Some c =>
      let st1 :=
        set_paths (config_get c "Settings" "game_path" "")
                  (config_get c "Settings" "mods_folder" "") st in
      let st2 :=
        if has_section c "RecentPaths" then
          let r := recent_paths st1 in
          set_recent_paths
            (Recent (load_list c "RecentPaths" "game_paths" (recent_game r))
                    (load_list c "RecentPaths" "mods_paths" (recent_mods r))
                    (load_list c "RecentPaths" "files_paths" (recent_files r)))
            st1
        else st1 in
      if has_section c "Favorites" then
        let f := favorites st2 in
        set_favorites
          (Favs (load_list c "Favorites" "game_favorites" (fav_game f))
                (load_list c "Favorites" "mods_favorites" (fav_mods f)))
          st2
      else st2
  end.

(** The document [save_config] builds before writing it. *)
Definition config_of (st : state) : ini :=
  let r := recent_paths st in
  let f := favorites st in
  {[ "Settings" :=
       {[ "game_path" := game_path st; "mods_folder" := mods_folder st ]};
     "RecentPaths" :=
       {[ "game_paths" := PyStr.join "|" (take max_recent_items (recent_game r));
          "mods_paths" := PyStr.join "|" (take max_recent_items (recent_mods r));
          "files_paths" := PyStr.join "|" (take max_recent_items (recent_files r)) ]};
     "Favorites" :=
       {[ "game_favorites" := PyStr.join "|" (fav_game f);
          "mods_favorites" := PyStr.join "|" (fav_mods f) ]} ]}.

(** [save_config].  It fails when the parser refuses a value or the
    file cannot be opened, the file then being as before, or when the
    write breaks off, the file then holding what [config_cut] says. *)
Definition save_config (e : env) : M unit :=
  fun st =>
    if config_write_ok e
    then (set_config_file (Some (config_of st)) st, inr tt)
    else match config_cut e with
         | Some c => (set_config_file (Some c) st, inl WriteError)
         | None => (st, inl WriteError)
         end.

Definition get_recent (k : path_type) (r : recent) : list string :=
  match k with
  | game => recent_game r
  | mods => recent_mods r
  | files => recent_files r
  end.

Definition set_recent (k : path_type) (l : list string) (r : recent) : recent :=
  match k with
  | game => Recent l (recent_mods r) (recent_files r)
  | mods => Recent (recent_game r) l (recent_files r)
  | files => Recent (recent_game r) (recent_mods r) l
  end.

(** [list.remove(x)]: drops the first occurrence. *)
Fixpoint remove_first (x : string) (l : list string) : list string :=
  match l with
  | [] => []
  | y :: l' => if String.eqb y x then l' else y :: remove_first x l'
  end.

(** The list part of [add_to_recent_paths]. *)
Definition record_recent (path : string) (l : list string) : list string :=
  let l1 := if bool_decide (path ∈ l) then remove_first path l else l in
  let l2 := path :: l1 in
  take max_recent_items l2.

Definition add_to_recent_paths (e : env) (k : path_type) (path : string)
  : M unit :=
  if (PyStr.truthy path && path_exists e path)%bool then
    modify (fun s =>
      set_recent_paths
        (set_recent k (record_recent path (get_recent k (recent_paths s)))
                    (recent_paths s)) s);;
    save_config e
  else mret tt.

(** Calling [add_to_recent_paths] for each path of [ps] in turn. *)
Definition record_all (e : env) (k : path_type) (ps : list string)
    (st : state) : state :=
  foldl (fun s p => fst (add_to_recent_paths e k p s)) st ps.

(** ** Start of a session *)

(** The fields as [__init__] sets them, over the files found. *)
Definition fresh (cfg : option ini) (mf : json_file)
    (d : gmap string payload) : state :=
  State "" "" [] (Recent [] [] []) (Favs [] []) cfg mf d.

(** [__init__]: [load_config] then [load_mods_data]. *)
Definition startup (cfg : option ini) (mf : json_file)
    (d : gmap string payload) : state :=
  load_mods_data (load_config (fresh cfg mf d)).


Definition reload (st : state) : state :=
  startup (config_file st) (mods_file st) (disk st).






(** ** Scripts of user actions *)

Inductive action :=
| InstallFile (file_path : string)
| InstallFolder (folder_path : string)
| RemoveMod (selection : option string) (confirm : bool)
| ToggleMod (selection : option string)
| MoveMod (selection : option string) (direction : Z).

Definition perform (e : env) (a : action) : state -> state * outcome :=
  match a with
  | InstallFile p => install_mod_file e p
  | InstallFolder p => install_mod_folder e p
  | RemoveMod sel confirm => remove_mod e sel confirm
  | ToggleMod sel => toggle_mod e sel
  | MoveMod sel direction => move_mod e sel direction
  end.

(** The states after each action of a script, each action under its own
    environment. *)
Fixpoint trace (script : list (env * action)) (st : state) : list state :=
  match script with
  | [] => []
  | (e, a) :: rest =>
      let st' := fst (perform e a st) in
      st' :: trace rest st'
  end.

(** ** Invariants *)

(** The priorities are [0, ..., N-1] in some order. *)
Definition dense (l : list mod_data) : Prop :=
  map priority l ≡ₚ map Z.of_nat (seq 0 (length l)).

(** Each entry's priority is its index. *)
Definition in_order (l : list mod_data) : Prop :=
  map priority l = map Z.of_nat (seq 0 (length l)).

(** ** Sample environments and registries *)

(** An environment where every call succeeds. *)
Definition calm : env :=
  Env (fun _ => true) CopyOk true WriteOk true None None.

Definition with_copy_result (c : copy_outcome) (e : env) : env :=
  Env (path_exists e) c (delete_ok e) (mods_write e) (config_write_ok e)
      (rmtree_leaves e) (config_cut e).

Definition with_delete_ok (b : bool) (e : env) : env :=
  Env (path_exists e) (copy_result e) b (mods_write e) (config_write_ok e)
      (rmtree_leaves e) (config_cut e).

Definition with_mods_write (w : write_outcome) (e : env) : env :=
  Env (path_exists e) (copy_result e) (delete_ok e) w (config_write_ok e)
      (rmtree_leaves e) (config_cut e).

Definition with_config_write_ok (b : bool) (e : env) : env :=
  Env (path_exists e) (copy_result e) (delete_ok e) (mods_write e) b
      (rmtree_leaves e) (config_cut e).

Definition with_rmtree_leaves (d : option (gmap string payload)) (e : env)
  : env :=
  Env (path_exists e) (copy_result e) (delete_ok e) (mods_write e)
      (config_write_ok e) d (config_cut e).

Definition empty_state : state := fresh None JsonAbsent ∅.

(** [A.zip] then folder [B] installed into an empty session. *)
Definition two_mods : state :=
  fst (install_mod_folder calm "/src/B"
         (fst (install_mod_file calm "/src/A.zip" empty_state))).


(** A registry as a hand-edited store can hold it: dense priorities that
    are not the indices. *)
Definition shuffled : state :=
  set_mods_data
    [Mod 0 "A" "A.zip" "/src/A.zip" true 2 "file";
     Mod 1 "B" "B" "/src/B" true 0 "folder";
     Mod 2 "C" "C.pak" "/src/C.pak" false 1 "file"]
    empty_state.


(** A session with a filled catalog. *)
Definition settled : state :=
  set_favorites (Favs ["/games"; "/opt/games"] ["/mods"])
    (set_paths "/games/doom" "/mods"
       (record_all calm files ["/dl/A.zip"; "/dl/B"]
          (record_all calm game ["/games/quake"; "/games/doom"] two_mods))).

Definition busy_script : list (env * action) :=
  [(calm, InstallFile "/src/D.esp");
   (with_copy_result CopyFailsPartway calm, InstallFolder "/src/E");
   (calm, MoveMod (Some "D") (-1));
   (with_mods_write WriteFailsPartway calm, ToggleMod (Some "A"));
   (with_delete_ok false calm, RemoveMod (Some "A") true);
   (calm, RemoveMod (Some "B") true)].

(** ** Further predicates on the registry *)

(** Each entry's [id] is its index, as after installs into an empty
    registry. *)
Definition ids_by_index (l : list mod_data) : Prop :=
  map id l = map Z.of_nat (seq 0 (length l)).

(** ** Favourites, clearing recents, choosing the folders *)

(** Exceptions of the methods below and what they show. *)
Inductive py_exn := KeyError | IndexError | ConfigWriteError.

Inductive report :=
| Done (status : string)
| Info (msg : string)
| Warn (msg : string)
| ErrorShown (title : string)
| Unhandled (e : py_exn)
| Silent.

(** [self.favorites[path_type]]: there is no key ['files']. *)
Definition get_fav (k : path_type) (f : favs) : option (list string) :=
  match k with
  | game => Some (fav_game f)
  | mods => Some (fav_mods f)
  | files => None
  end.

Definition set_fav (k : path_type) (l : list string) (f : favs) : favs :=
  match k with
  | game => Favs l (fav_mods f)
  | mods => Favs (fav_game f) l
  | files => f
  end.

Definition path_type_name (k : path_type) : string :=
  match k with
  | game => "game"
  | mods => "mods"
  | files => "files"
  end.

(** [save_config] as the last step of a method without handler. *)
Definition then_save_config (e : env) (ok : report) (st : state)
  : state * report :=
  match save_config e st with
  | (st', inr _) => (st', ok)
  | (st', inl _) => (st', Unhandled ConfigWriteError)
  end.

Definition add_to_favorites (e : env) (k : path_type) (path : string)
    (st : state) : state * report :=
  if (PyStr.truthy path && path_exists e path)%bool then
    match get_fav k (favorites st) with
    | None => (st, Unhandled KeyError)
    | Some l =>
        if bool_decide (path ∈ l) then (st, Silent)
        else
          then_save_config e
            (Info ("Added to " ++ path_type_name k ++ " favorites!"))
            (set_favorites (set_fav k (l ++ [path]) (favorites st)) st)
    end
  else (st, Silent).

(** [clear_recent_paths]: [confirm] is the answer to the yes/no box. *)
Definition clear_recent_paths (e : env) (k : path_type) (confirm : bool)
    (st : state) : state * report :=
  if confirm then
    then_save_config e Silent
      (set_recent_paths (set_recent k [] (recent_paths st)) st)
  else (st, Silent).

(** [remove_favorite]: the list box of the kind is looked up first
    ([fav_listboxes] has the keys of [favorites]); [selection] is
    [listbox.curselection()], empty or starting with the index chosen. *)
Definition remove_favorite (e : env) (k : path_type) (selection : option nat)
    (st : state) : state * report :=
  match get_fav k (favorites st) with
  | None => (st, Unhandled KeyError)
  | Some l =>
      match selection with
      | Some index =>
          if (index <? length l)%nat then
            then_save_config e Silent
              (set_favorites (set_fav k (delete index l) (favorites st)) st)
          else (st, Unhandled IndexError)
      | None =>
          (st, Warn ("Please select a " ++ path_type_name k
                     ++ " favorite to remove!"))
      end
  end.

(** [add_to_recent_paths] inside a method without handler. *)
Definition recent_step (e : env) (k : path_type) (path : string)
    (st : state) : state * (py_exn + unit) :=
  match add_to_recent_paths e k path st with
  | (st', inr _) => (st', inr tt)
  | (st', inl _) => (st', inl ConfigWriteError)
  end.

Definition set_game_path (g : string) (st : state) : state :=
  set_paths g (mods_folder st) st.

(** [select_game_path]: [chosen] is what the dialog returns, [accessible]
    the answer of [os.access(path, R_OK | X_OK)]. *)
Definition select_game_path (e : env) (chosen : option string)
    (accessible : bool) (st : state) : state * report :=
  match chosen with
  | Some path =>
      if PyStr.truthy path then
        if accessible then
          match recent_step e game path (set_game_path path st) with
          | (st1, inr _) =>
              then_save_config e (Done ("Game path set to: " ++ path)) st1
          | (st1, inl ex) => (st1, Unhandled ex)
          end
        else (st, ErrorShown "Permission Error")
      else (st, Silent)
  | None => (st, Silent)
  end.

(** How the access test of the add-mod dialogs ends: [open(...).read(1)]
    or [os.listdir]. *)
Inductive access := Readable | Denied | Broken.

(** What [add_mod_file_enhanced] and [add_mod_folder_enhanced] end with:
    nothing chosen; the error box of a refused or of a failed access test;
    an error box because [add_to_recent_paths] raised (which of the two
    boxes depends on the kind of the write error); or the outcome of the
    install they called. *)
Inductive add_report :=
| NothingChosen
| PermissionErrorBox
| AccessErrorBox
| RecentFailedBox
| Installed (o : outcome).

Definition add_mod_file_enhanced (e : env) (chosen : option string)
    (a : access) (st : state) : state * add_report :=
  match chosen with
  | Some file_path =>
      if PyStr.truthy file_path then
        match a with
        | Denied => (st, PermissionErrorBox)
        | Broken => (st, AccessErrorBox)
        | Readable =>
            match add_to_recent_paths e files file_path st with
            | (st1, inl _) => (st1, RecentFailedBox)
            | (st1, inr _) =>
                let (st2, o) := install_mod_file e file_path st1 in
                (st2, Installed o)
            end
        end
      else (st, NothingChosen)
  | None => (st, NothingChosen)
  end.

Definition add_mod_folder_enhanced (e : env) (chosen : option string)
    (a : access) (st : state) : state * add_report :=
  match chosen with
  | Some folder_path =>
      if PyStr.truthy folder_path then
        match a with
        | Denied => (st, PermissionErrorBox)
        | Broken => (st, AccessErrorBox)
        | Readable =>
            match add_to_recent_paths e files folder_path st with
            | (st1, inl _) => (st1, RecentFailedBox)
            | (st1, inr _) =>
                let (st2, o) := install_mod_folder e folder_path st1 in
                (st2, Installed o)
            end
        end
      else (st, NothingChosen)
  | None => (st, NothingChosen)
  end.

(** A path as [load_config] yields them: not empty, without ['|'], without
    white space around it. *)
Definition clean_path (p : string) : Prop :=
  PyStr.truthy p = true /\ PyStr.contains "|" p = false /\ PyStr.strip p = p.

(** The string is empty or begins with a character that is not white
    space. *)
Definition starts_clean (s : string) : Prop :=
  match s with
  | EmptyString => True
  | String c _ => PyStr.is_space c = false
  end.

(** A session with one favourite game folder. *)
Definition with_favorite : state :=
  set_favorites (Favs ["/games"] []) two_mods.


(** ** Launching the game *)

(** [f.lower().endswith(('.exe', '.AppImage', '.sh'))]. *)
Definition is_executable_name (f : string) : bool :=
  PyOs.endswith ".exe" (PyOs.lower f)
  || PyOs.endswith ".AppImage" (PyOs.lower f)
  || PyOs.endswith ".sh" (PyOs.lower f).

(** The Steam id [launch_game] reads off a Proton path, if any.
    [isdigit] is Python's [str.isdigit], whose table of Unicode digits is
    not part of the program. *)
Definition steam_id_of (isdigit : string -> bool) (game_path : string)
  : option string :=
  if PyOs.contains_str "steamapps/compatdata/" game_path then
    match PyOs.split_str "steamapps/compatdata/" game_path with
    | _ :: part :: _ =>
        let steam_id_path := hd EmptyString (PyStr.split "/" part) in
        if isdigit steam_id_path then Some steam_id_path else None
    | _ => None
    end
  else None.

(** What the system and the user do during one [launch_game]: whether
    the game path exists and is a directory, what [os.listdir] returns
    ([None] when it raises), the answer to the launch-method question,
    the index picked in [choose_executable] ([None] for Cancel), and
    whether [subprocess.Popen] succeeds.  The [chmod] before the spawn is
    best effort and has no part in the result. *)
Record launch_env := LaunchEnv {
  game_exists : bool;
  game_isdir : bool;
  listdir : option (list string);
  through_steam : bool;
  picked : option nat;
  popen_ok : bool
}.

Inductive launch_result :=
| LaunchError (msg : string)
| LaunchCancelled
| Spawned (argv : list string) (cwd : option string).

Definition popen (w : launch_env) (argv : list string) (cwd : option string)
  : launch_result :=
  if popen_ok w then Spawned argv cwd
  else LaunchError "Failed to launch game".

Definition launch_direct (w : launch_env) (game_path : string)
  : launch_result :=
  if game_isdir w then
    match listdir w with
    | None => LaunchError "Failed to launch game"
    | Some names =>
        let exes := filter (fun f => is_executable_name f = true) names in
        match exes with
        | [] => LaunchError "No executable found in the selected folder!"
        | [exe_file] =>
            let exe_path := PyOs.join game_path exe_file in
            popen w [exe_path] (Some (PyOs.dirname exe_path))
        | _ =>
            match picked w with
            | Some i =>
                match exes !! i with
                | Some exe_file =>
                    if PyStr.truthy exe_file then
                      let exe_path := PyOs.join game_path exe_file in
                      popen w [exe_path] (Some (PyOs.dirname exe_path))
                    else LaunchCancelled
                | None => LaunchCancelled
                end
            | None => LaunchCancelled
            end
        end
    end
  else popen w [game_path] (Some (PyOs.dirname game_path)).

Definition launch_game (isdigit : string -> bool) (w : launch_env)
    (game_path : string) : launch_result :=
  if (negb (PyStr.truthy game_path) || negb (game_exists w))%bool then
    LaunchError "Game path is not set or does not exist!"
  else
    match steam_id_of isdigit game_path with
    | Some steam_id =>
        if (PyStr.truthy steam_id && through_steam w)%bool
        then popen w ["xdg-open"; "steam://rungameid/" +:+ steam_id] None
        else launch_direct w game_path
    | None => launch_direct w game_path
    end.

(** [str.isdigit] on ASCII text, for the examples: not empty and digits
    only. *)
Definition ascii_isdigit (s : string) : bool :=
  PyStr.truthy s
  && forallb (fun c => (48 <=? nat_of_ascii c)%nat && (nat_of_ascii c <=? 57)%nat)
       (list_ascii_of_string s).

(** ** The listing of the file dialog *)

(** One tuple [(item, size, modified, is_dir)] of [navigate_to_path]. *)
Record dir_item := Item {
  item_name : string;
  item_size : string;
  item_modified : string;
  item_is_dir : bool
}.

(** [False < True]. *)
Definition bool_lt (a b : bool) : bool := negb a && b.

(** The sort key [(not x[3], x[0].lower())], and [<] on two keys as Python
    compares tuples. *)
Definition item_key (x : dir_item) : bool * string :=
  (negb (item_is_dir x), PyOs.lower (item_name x)).

Definition key_lt (a b : bool * string) : bool :=
  bool_lt (fst a) (fst b)
  || (Bool.eqb (fst a) (fst b) && String.ltb (snd a) (snd b)).

(** [items.sort(key=...)]: the stable sort, as insertion from the right;
    an item goes behind the items whose key is strictly smaller. *)
Fixpoint insert_item (x : dir_item) (l : list dir_item) : list dir_item :=
  match l with
  | [] => [x]
  | y :: l' =>
      if key_lt (item_key y) (item_key x) then y :: insert_item x l'
      else x :: l
  end.

Definition sort_items (l : list dir_item) : list dir_item :=
  foldr insert_item [] l.

(** ** The setup script *)

(** [<] on tuples of integers: the first difference decides, and a proper
    prefix is smaller. *)
Fixpoint tuple_lt (a b : list Z) : bool :=
  match a, b with
  | _, [] => false
  | [], _ :: _ => true
  | x :: a', y :: b' => (x <? y)%Z || ((x =? y)%Z && tuple_lt a' b')
  end.

Definition REQUIRED_PYTHON : list Z := [3%Z; 7%Z].

Inductive script_step := Exit (code : Z) | GoOn.

(** [check_python_version]: [version_info] is [sys.version_info], of
    which only the leading integers are ever compared. *)
Definition check_python_version (version_info : list Z) : script_step :=
  if tuple_lt version_info REQUIRED_PYTHON then Exit 1 else GoOn.

(** * Results *)

(** ** Sanity checks of the helpers on concrete inputs *)

Example split_bars : PyStr.split "|" "a||b" = ["a"; ""; "b"].
Proof. reflexivity. Qed.

Example split_empty : PyStr.split "|" "" = [""].
Proof. reflexivity. Qed.

Example strip_both : PyStr.strip "  a b " = "a b".
Proof. reflexivity. Qed.

Example basename_file : PyStr.basename "/mods/src/A.zip" = "A.zip".
Proof. reflexivity. Qed.

Example basename_trailing : PyStr.basename "/mods/src/" = "".
Proof. reflexivity. Qed.

Example splitext_zip : PyStr.splitext "A.tar.zip" = ("A.tar", ".zip").
Proof. reflexivity. Qed.

Example splitext_hidden : PyStr.splitext ".bashrc" = (".bashrc", "").
Proof. reflexivity. Qed.

(** The scenario of the design notes: install [A.zip], then folder [B],
    move [B] up, remove [A]. *)
Example scenario_order :
  let s3 := fst (move_mod_up calm (Some "B") two_mods) in
  let s4 := fst (remove_mod calm (Some "A") true s3) in
  map (fun m => (name m, priority m)) (mods_data s3) = [("B", 0%Z); ("A", 1%Z)]
  /\ map (fun m => (name m, priority m)) (mods_data s4) = [("B", 0%Z)].
Proof. vm_compute. split; reflexivity. Qed.

(** ** Unfolding the method bodies *)

Ltac run_M :=
  unfold install_mod_file, install_mod_folder, remove_mod, toggle_mod,
    move_mod, add_to_recent_paths, try_except, no_handler, copy2, copytree,
    save_mods_data, save_config, modify, get, raise,
    mbind, M_bind, bind, mret, M_ret, ret in *;
  simpl in *.

(** The deletion step touches at most the mods folder, whether it
    succeeds or raises. *)
Lemma remove_payload_cases (e : env) (m : mod_data) (st : state) :
  (exists d, remove_payload e m st = (set_disk d st, inr tt))
  \/ (exists d, remove_payload e m st = (set_disk d st, inl DeleteError)).
Proof.
  assert (Hid : st = set_disk (disk st) st) by (by destruct st).
  unfold remove_payload, rmtree, os_remove, unlink, get,
    mbind, M_bind, bind, mret, M_ret, ret.
  destruct (mod_path_exists e st (file_path m)).
  - destruct (String.eqb _ _);
      destruct (payload_at st (file_path m)) as [[]|];
      try (right; exists (disk st); by rewrite <- Hid);
      destruct (delete_ok e);
      try (left; destruct (file_path m); eexists; reflexivity);
      try (destruct (rmtree_leaves e) as [d|]);
      right; first [by exists d | exists (disk st); by rewrite <- Hid].
  - left. exists (disk st). by rewrite <- Hid.
Qed.

(** ** Renumbering and the two invariants *)

Lemma in_order_dense (l : list mod_data) : in_order l -> dense l.
Proof. unfold in_order, dense. intros ->. reflexivity. Qed.

Lemma renumber_from (l : list mod_data) (n : nat) :
  map priority (imap (fun i m => set_priority (Z.of_nat (n + i)) m) l)
  = map Z.of_nat (seq n (length l)).
Proof.
  revert n. induction l as [|m l IH]; intros n; [reflexivity|].
  rewrite imap_cons. simpl. f_equal.
  - f_equal. lia.
  - rewrite <- (IH (S n)). f_equal. apply imap_ext.
    intros i x _. simpl. f_equal. lia.
Qed.

Lemma renumber_in_order (l : list mod_data) : in_order (renumber l).
Proof.
  unfold in_order, renumber. rewrite length_imap.
  apply (renumber_from l 0).
Qed.

Lemma seq_snoc (n : nat) : seq 0 (S n) = seq 0 n ++ [n].
Proof. rewrite seq_S. reflexivity. Qed.

Lemma append_in_order (l : list mod_data) (m : mod_data) :
  priority m = Z.of_nat (length l) -> in_order l -> in_order (l ++ [m]).
Proof.
  unfold in_order. intros Hp Hl.
  rewrite map_app, length_app, Hl. simpl.
  rewrite Nat.add_1_r, seq_snoc, map_app, Hp. reflexivity.
Qed.

Lemma append_dense (l : list mod_data) (m : mod_data) :
  priority m = Z.of_nat (length l) -> dense l -> dense (l ++ [m]).
Proof.
  unfold dense. intros Hp Hl.
  rewrite map_app, length_app, Hl. simpl.
  rewrite Nat.add_1_r, seq_snoc, map_app, Hp. reflexivity.
Qed.

Lemma toggle_first_priorities (mod_name : string) (l : list mod_data) :
  map priority (fst (toggle_first mod_name l)) = map priority l
  /\ length (fst (toggle_first mod_name l)) = length l.
Proof.
  unfold toggle_first, find_mod.
  destruct (list_find _ l) as [[i m]|] eqn:Hf; simpl; [|done].
  apply list_find_Some in Hf as (Hi & _ & _).
  split; [|apply length_insert].
  change (map priority) with (fmap (M:=list) priority).
  rewrite list_fmap_insert. simpl.
  apply list_insert_id. rewrite list_lookup_fmap, Hi. reflexivity.
Qed.

(** What an action can do to the list in memory, whatever the
    environment does: nothing, append an entry whose priority is the old
    length, renumber some list, or flip one [enabled]. *)
Lemma perform_mods_data (e : env) (a : action) (st : state) :
  let l := mods_data st in
  let l' := mods_data (fst (perform e a st)) in
  l' = l
  \/ (exists m, priority m = Z.of_nat (length l) /\ l' = l ++ [m])
  \/ (exists l0, l' = renumber l0)
  \/ (exists n, l' = fst (toggle_first n l)).
Proof.
  destruct a as [p|p|sel confirm|sel|sel direction]; simpl.
  - run_M.
    destruct (copy_result e); [|by left|destruct (payload_at st _) as [[]|]; by left].
    destruct (payload_at st _) as [[]|], (mods_write e); simpl;
      right; left; eexists; (split; [|reflexivity]); reflexivity.
  - run_M.
    destruct (copy_result e); [|by left|];
      (destruct (payload_at st (PyStr.basename p)); [by left|]); [|by left].
    destruct (mods_write e); simpl;
      right; left; eexists; (split; [|reflexivity]); reflexivity.
  - destruct sel as [mod_name|]; [|by left].
    destruct confirm; [|by left].
    run_M.
    destruct (find_mod _ _) as [[i m]|]; [|by left].
    destruct (remove_payload_cases e m st) as [[d ->] | [d ->]]; [|by left].
    simpl. destruct (mods_write e); simpl;
      right; right; left; eexists; reflexivity.
  - destruct sel as [mod_name|]; [|by left].
    run_M.
    destruct (toggle_first mod_name (mods_data st)) as [l lv] eqn:Ht. simpl.
    right; right; right. exists mod_name. rewrite Ht. simpl.
    destruct (mods_write e), lv; reflexivity.
  - destruct sel as [mod_name|]; [|by left].
    run_M.
    destruct (find_mod _ _) as [[i m]|]; [|by left].
    destruct (_ && _)%bool; [|by left]. simpl.
    destruct (mods_write e); simpl; right; right; left; eexists; reflexivity.
Qed.

Lemma perform_dense (e : env) (a : action) (st : state) :
  dense (mods_data st) -> dense (mods_data (fst (perform e a st))).
Proof.
  intros Hd.
  destruct (perform_mods_data e a st) as [-> | [(m & Hp & ->) | [(l0 & ->) | (n & ->)]]].
  - exact Hd.
  - by apply append_dense.
  - apply in_order_dense, renumber_in_order.
  - unfold dense.
    destruct (toggle_first_priorities n (mods_data st)) as [-> ->]. exact Hd.
Qed.

Lemma perform_in_order (e : env) (a : action) (st : state) :
  in_order (mods_data st) -> in_order (mods_data (fst (perform e a st))).
Proof.
  intros Hd.
  destruct (perform_mods_data e a st) as [-> | [(m & Hp & ->) | [(l0 & ->) | (n & ->)]]].
  - exact Hd.
  - by apply append_in_order.
  - apply renumber_in_order.
  - unfold in_order.
    destruct (toggle_first_priorities n (mods_data st)) as [-> ->]. exact Hd.
Qed.

(** A list whose priorities ascend strictly is its own stable sort. *)
Lemma sorted_mods_from (l : list mod_data) (n : nat) :
  map priority l = map Z.of_nat (seq n (length l)) -> sorted_mods l = l.
Proof.
  revert n. induction l as [|m l IH]; intros n H; [reflexivity|].
  simpl in H. injection H as Hm Hl.
  unfold sorted_mods in *. simpl. rewrite (IH (S n) Hl).
  destruct l as [|x l]; [reflexivity|]. simpl.
  simpl in Hl. injection Hl as Hx _.
  rewrite Hm, Hx. replace (_ <=? _)%Z with true; [reflexivity|].
  symmetry. apply Z.leb_le. lia.
Qed.

Lemma in_order_sorted (l : list mod_data) : in_order l -> sorted_mods l = l.
Proof. intros H. exact (sorted_mods_from l 0 H). Qed.

Lemma in_order_lookup (l : list mod_data) (i : nat) (m : mod_data) :
  in_order l -> l !! i = Some m -> priority m = Z.of_nat i.
Proof.
  unfold in_order. intros H Hm.
  assert (Hl := lookup_lt_Some _ _ _ Hm).
  assert (H1 : map priority l !! i = Some (priority m)).
  { change (map priority) with (fmap (M:=list) priority).
    rewrite list_lookup_fmap, Hm. reflexivity. }
  rewrite H in H1.
  change (map Z.of_nat) with (fmap (M:=list) Z.of_nat) in H1.
  rewrite list_lookup_fmap, lookup_seq_lt in H1 by done.
  simpl in H1. congruence.
Qed.

Lemma in_order_ascending (l : list mod_data) :
  in_order l ->
  forall i j a b, l !! i = Some a -> l !! j = Some b ->
    (i < j <-> (priority a < priority b)%Z).
Proof.
  intros H i j a b Ha Hb.
  rewrite (in_order_lookup _ _ _ H Ha), (in_order_lookup _ _ _ H Hb). lia.
Qed.

(** ** The load order under scripts of actions *)

(** C1.  Dense-permutation invariant: from a registry whose priorities
    are [0, ..., N-1] in some order, after each action of any script of
    installs, removals, moves and toggles, under any behaviour of the
    file system, the priorities of the entries are again exactly
    [0, ..., N-1] for the current number [N] of entries. *)
Theorem dense_after_every_action (script : list (env * action)) (st : state) :
  dense (mods_data st) ->
  Forall (fun s => dense (mods_data s)) (trace script st).
Proof.
  revert st. induction script as [|[e a] rest IH]; intros st Hd; simpl.
  - constructor.
  - constructor.
    + by apply perform_dense.
    + apply IH. by apply perform_dense.
Qed.

Lemma dense_after_every_action_witness :
  dense (mods_data shuffled)
  /\ Forall (fun s => dense (mods_data s)) (trace busy_script shuffled).
Proof.
  assert (H : dense (mods_data shuffled)).
  { unfold dense. simpl.
    apply (Permutation_cons_app [0%Z; 1%Z] []). reflexivity. }
  split; [exact H | exact (dense_after_every_action busy_script shuffled H)].
Defined.

(** C10.  Storage-order invariant: from a registry in which each entry's
    priority is its index in [mods_data], after each action of any script
    each entry's priority is again its index; hence the entries are stored
    in strictly ascending priority, sorting by priority changes nothing,
    and the rows [refresh_mod_list] shows are the entries in storage
    order. *)
Theorem in_order_after_every_action (script : list (env * action)) (st : state) :
  in_order (mods_data st) ->
  Forall (fun s =>
            in_order (mods_data s)
            /\ (forall i j a b,
                   mods_data s !! i = Some a -> mods_data s !! j = Some b ->
                   (i < j <-> (priority a < priority b)%Z))
            /\ sorted_mods (mods_data s) = mods_data s
            /\ refresh_mod_list s = map row_of (mods_data s))
         (trace script st).
Proof.
  revert st. induction script as [|[e a] rest IH]; intros st Hd; simpl.
  - constructor.
  - assert (H := perform_in_order e a st Hd).
    constructor; [|by apply IH].
    split; [exact H|]. split; [by apply in_order_ascending|].
    unfold refresh_mod_list. by rewrite (in_order_sorted _ H).
Qed.

Lemma in_order_after_every_action_witness :
  in_order (mods_data two_mods)
  /\ Forall (fun s =>
            in_order (mods_data s)
            /\ (forall i j a b,
                   mods_data s !! i = Some a -> mods_data s !! j = Some b ->
                   (i < j <-> (priority a < priority b)%Z))
            /\ sorted_mods (mods_data s) = mods_data s
            /\ refresh_mod_list s = map row_of (mods_data s))
         (trace busy_script two_mods).
Proof.
  assert (H : in_order (mods_data two_mods)) by reflexivity.
  split; [exact H | exact (in_order_after_every_action busy_script two_mods H)].
Defined.

(** ** Installing *)








(** ** Persisting *)

(** C4, as the code has it.  When writing the store fails in an install,
    removal, toggle or move, nothing is rolled back: the registry in
    memory (and the mods folder) is the one the same call leaves when the
    write succeeds.  Where the call would have ended with a status
    message, the failure is shown in an error box by install and remove
    and leaves toggle and move as an uncaught exception. *)
Theorem failed_flush_keeps_mutation
    (e : env) (w : write_outcome) (a : action) (st : state) :
  w <> WriteOk ->
  let ok := perform (with_mods_write WriteOk e) a st in
  let ko := perform (with_mods_write w e) a st in
  mods_data (fst ko) = mods_data (fst ok)
  /\ disk (fst ko) = disk (fst ok)
  /\ (forall msg, snd ok = Status msg ->
      snd ko = match a with
               | InstallFile _ | InstallFolder _ | RemoveMod _ _ =>
                   ErrorBox WriteError
               | ToggleMod _ | MoveMod _ _ => Uncaught WriteError
               end).
Proof.
  intros Hw.
  destruct a as [p|p|sel confirm|sel|sel direction]; simpl.
  - run_M.
    destruct (copy_result e); simpl; [|done|];
      destruct (payload_at st (PyStr.basename p)) as [[]|]; simpl;
      destruct w; try done; simpl; repeat split; done.
  - run_M.
    destruct (copy_result e); simpl; try done;
      destruct (payload_at st (PyStr.basename p)); simpl; try done;
      destruct w; try done; simpl; repeat split; done.
  - destruct sel as [mod_name|]; [|done]. destruct confirm; [|done].
    run_M.
    destruct (find_mod _ _) as [[i m]|]; [|done].
    replace (remove_payload (with_mods_write WriteOk e) m st)
      with (remove_payload e m st) by reflexivity.
    replace (remove_payload (with_mods_write w e) m st)
      with (remove_payload e m st) by reflexivity.
    destruct (remove_payload_cases e m st) as [[d ->] | [d ->]]; [|done].
    simpl. destruct w; try done; simpl; repeat split; done.
  - destruct sel as [mod_name|]; [|done].
    run_M.
    destruct (toggle_first mod_name (mods_data st)) as [l lv]. simpl.
    destruct w, lv; try done; simpl; repeat split; done.
  - destruct sel as [mod_name|]; [|done].
    run_M.
    destruct (find_mod _ _) as [[i m]|]; [|done].
    destruct (_ && _)%bool; [|done]. simpl.
    destruct w; try done; simpl; repeat split; done.
Qed.

Lemma failed_flush_keeps_mutation_witness :
  WriteFailsOpen <> WriteOk
  /\ mods_data (fst (perform (with_mods_write WriteFailsOpen calm)
                       (MoveMod (Some "B") (-1)) two_mods))
     = mods_data (fst (perform (with_mods_write WriteOk calm)
                         (MoveMod (Some "B") (-1)) two_mods)).
Proof.
  assert (H : WriteFailsOpen <> WriteOk) by discriminate.
  destruct (failed_flush_keeps_mutation calm WriteFailsOpen
              (MoveMod (Some "B") (-1)) two_mods H) as (Hm & _).
  exact (conj H Hm).
Defined.

(** C4 as stated fails: an install whose write fails shows the error but
    keeps the new entry in memory, while the store still lacks it. *)
Lemma failed_flush_not_rolled_back :
  mods_data empty_state = []
  /\ snd (install_mod_file (with_mods_write WriteFailsOpen calm)
            "/src/A.zip" empty_state) = ErrorBox WriteError
  /\ mods_data (fst (install_mod_file (with_mods_write WriteFailsOpen calm)
                       "/src/A.zip" empty_state))
     = [file_entry 0 "/src/A.zip"]
  /\ mods_file (fst (install_mod_file (with_mods_write WriteFailsOpen calm)
                       "/src/A.zip" empty_state)) = JsonAbsent.
Proof. repeat split; vm_compute; reflexivity. Qed.

(** ** Removing, toggling, moving *)




(** A tree whose deletion breaks off after part of it is gone: the error
    is shown, the entry stays, and the mods folder is no longer as it
    was. *)
Example uninstall_breaks_off_partway :
  let e := with_rmtree_leaves (Some (<["B" := TreeCopy "/src/B" false]> (disk two_mods)))
             (with_delete_ok false calm) in
  snd (remove_mod e (Some "B") true two_mods) = ErrorBox DeleteError
  /\ mods_data (fst (remove_mod e (Some "B") true two_mods)) = mods_data two_mods
  /\ disk (fst (remove_mod e (Some "B") true two_mods)) <> disk two_mods.
Proof.
  split_and!; try (vm_compute; reflexivity).
  intros H. apply (f_equal (fun d => d !! "B")) in H. vm_compute in H. discriminate.
Qed.

(** A payload that cannot be deleted: the error is shown and both entries
    stay. *)
Example uninstall_keeps_record_when_delete_fails :
  remove_mod (with_delete_ok false calm) (Some "B") true two_mods
  = (two_mods, ErrorBox DeleteError).
Proof. vm_compute. reflexivity. Qed.

(** C7, as the code has it.  In a registry where each entry's priority is
    its index, let a selected name stand for the entry [m] (the first
    with that name).  If [m] has priority [0], moving it up does nothing:
    no error, no message, nothing written, the state as before; likewise
    moving it down when [m] has the highest priority [N-1].  The
    priorities stay [0, ..., N-1]. *)
Theorem move_at_boundary_is_noop
    (e : env) (mod_name : string) (i : nat) (m : mod_data) (st : state) :
  in_order (mods_data st) ->
  find_mod mod_name (mods_data st) = Some (i, m) ->
  (priority m = 0%Z ->
     move_mod e (Some mod_name) (-1) st = (st, Nothing)
     /\ dense (mods_data (fst (move_mod e (Some mod_name) (-1) st))))
  /\ (priority m = (Z.of_nat (length (mods_data st)) - 1)%Z ->
     move_mod e (Some mod_name) 1 st = (st, Nothing)
     /\ dense (mods_data (fst (move_mod e (Some mod_name) 1 st)))).
Proof.
  intros Ho Hf.
  pose proof Hf as Hf'.
  apply list_find_Some in Hf' as (Hi & _).
  pose proof (in_order_lookup _ _ _ Ho Hi) as Hp.
  split; intros H0.
  - assert (Hr : move_mod e (Some mod_name) (-1) st = (st, Nothing)).
    { run_M. rewrite Hf.
      replace (0 <=? Z.of_nat i + -1)%Z with false; [reflexivity|].
      symmetry. apply Z.leb_gt. lia. }
    rewrite Hr. split; [done|]. by apply in_order_dense.
  - assert (Hr : move_mod e (Some mod_name) 1 st = (st, Nothing)).
    { run_M. rewrite Hf.
      replace (Z.of_nat i + 1 <? Z.of_nat (length (mods_data st)))%Z with false;
        [by rewrite andb_false_r|].
      symmetry. apply Z.ltb_ge. lia. }
    rewrite Hr. split; [done|]. by apply in_order_dense.
Qed.

Lemma move_at_boundary_is_noop_witness :
  in_order (mods_data two_mods)
  /\ find_mod "A" (mods_data two_mods) = Some (0, file_entry 0 "/src/A.zip")
  /\ priority (file_entry 0 "/src/A.zip") = 0%Z
  /\ move_mod calm (Some "A") (-1) two_mods = (two_mods, Nothing).
Proof.
  assert (Ho : in_order (mods_data two_mods)) by reflexivity.
  assert (Hf : find_mod "A" (mods_data two_mods)
               = Some (0, file_entry 0 "/src/A.zip")) by (vm_compute; reflexivity).
  assert (Hp : priority (file_entry 0 "/src/A.zip") = 0%Z) by reflexivity.
  destruct (move_at_boundary_is_noop calm "A" 0 _ two_mods Ho Hf) as [H _].
  exact (conj Ho (conj Hf (conj Hp (proj1 (H Hp))))).
Defined.

(** C7 as stated fails: with priorities [2, 0, 1] in storage order, which
    are dense, moving up the entry with priority [0] swaps it with the
    entry stored before it and renumbers: the load order changes from
    [B, C, A] to [B, A, C]. *)
Lemma boundary_move_reorders :
  map (fun m => (name m, priority m)) (mods_data shuffled)
  = [("A", 2%Z); ("B", 0%Z); ("C", 1%Z)]
  /\ map row_text (refresh_mod_list shuffled) = ["B"; "C"; "A"]
  /\ snd (move_mod calm (Some "B") (-1) shuffled) = Status "Moved 'B' up!"
  /\ map (fun m => (name m, priority m))
         (mods_data (fst (move_mod calm (Some "B") (-1) shuffled)))
     = [("B", 0%Z); ("A", 1%Z); ("C", 2%Z)]
  /\ map row_text (refresh_mod_list (fst (move_mod calm (Some "B") (-1) shuffled)))
     = ["B"; "A"; "C"].
Proof. repeat split; vm_compute; reflexivity. Qed.

(** Such a registry is what a session holds after reading a store with
    these entries. *)
Example shuffled_loads :
  mods_data (startup None (JsonDoc (mods_data shuffled)) ∅) = mods_data shuffled.
Proof. reflexivity. Qed.

(** The same through names: two installs give two entries named [A];
    moving the second one down, which has the highest priority, moves the
    first one instead. *)
Remark shadowed_name_moves_other_entry :
  let st := fst (install_mod_file calm "/other/A.pak"
                   (fst (install_mod_file calm "/src/A.zip" empty_state))) in
  map (fun m => (name m, file_path m, priority m)) (mods_data st)
  = [("A", "A.zip", 0%Z); ("A", "A.pak", 1%Z)]
  /\ map (fun m => (name m, file_path m, priority m))
         (mods_data (fst (move_mod calm (Some "A") 1 st)))
     = [("A", "A.pak", 0%Z); ("A", "A.zip", 1%Z)].
Proof. split; vm_compute; reflexivity. Qed.

(** C9, as the code has it.  When the selected name matches no entry,
    [remove_mod] does nothing at all and reports nothing, whatever the
    answer to the confirmation; [toggle_mod] leaves the registry in
    memory as it is and still writes it to the store.  Neither reports
    that the target is missing: after a successful write [toggle_mod]
    reports success with the state of the last entry of the registry,
    or, the registry being empty, ends with the unbound loop variable
    as an error that leaves the method; if the write fails, the write
    error leaves the method. *)
Theorem missing_target_leaves_registry
    (e : env) (mod_name : string) (confirm : bool) (st : state) :
  find_mod mod_name (mods_data st) = None ->
  remove_mod e (Some mod_name) confirm st = (st, Nothing)
  /\ mods_data (fst (toggle_mod e (Some mod_name) st)) = mods_data st
  /\ (mods_write e = WriteOk ->
      mods_file (fst (toggle_mod e (Some mod_name) st)) = JsonDoc (mods_data st))
  /\ snd (toggle_mod e (Some mod_name) st)
     = match mods_write e, last (mods_data st) with
       | WriteOk, Some m =>
           Status ("Mod " ++ quoted mod_name ++ " "
                   ++ (if enabled m then "enabled" else "disabled") ++ "!")
       | WriteOk, None => Uncaught UnboundLocalError
       | _, _ => Uncaught WriteError
       end.
Proof.
  intros Hf. split; [|split; [|split]].
  - destruct confirm; [|reflexivity]. run_M. rewrite Hf. reflexivity.
  - run_M. unfold toggle_first. rewrite Hf. simpl.
    destruct (mods_write e), (last (mods_data st)); reflexivity.
  - intros Hw. run_M. unfold toggle_first. rewrite Hf, Hw. simpl.
    destruct (last (mods_data st)); reflexivity.
  - run_M. unfold toggle_first. rewrite Hf. simpl.
    destruct (mods_write e), (last (mods_data st)); reflexivity.
Qed.

Lemma missing_target_leaves_registry_witness :
  find_mod "ghost" (mods_data two_mods) = None
  /\ remove_mod calm (Some "ghost") true two_mods = (two_mods, Nothing).
Proof.
  assert (Hf : find_mod "ghost" (mods_data two_mods) = None)
    by (vm_compute; reflexivity).
  exact (conj Hf (proj1 (missing_target_leaves_registry calm "ghost" true two_mods Hf))).
Defined.

(** C9 as stated fails: for a name that matches nothing, removing ends
    without any error, and toggling ends with a success message about the
    last entry. *)
Lemma missing_target_not_reported :
  find_mod "ghost" (mods_data two_mods) = None
  /\ snd (remove_mod calm (Some "ghost") true two_mods) = Nothing
  /\ failed (snd (remove_mod calm (Some "ghost") true two_mods)) = false
  /\ snd (toggle_mod calm (Some "ghost") two_mods) = Status "Mod 'ghost' enabled!"
  /\ failed (snd (toggle_mod calm (Some "ghost") two_mods)) = false.
Proof. repeat split; vm_compute; reflexivity. Qed.

(** ** Recent paths *)








Lemma get_set_recent (k : path_type) (l : list string) (r : recent) :
  get_recent k (set_recent k l r) = l.
Proof. by destruct k. Qed.







(** Eleven paths recorded into an empty session: the first one is gone. *)
Example eleven_recent_paths :
  recent_files (recent_paths
    (record_all calm files
       ["/p/1"; "/p/2"; "/p/3"; "/p/4"; "/p/5"; "/p/6"; "/p/7"; "/p/8";
        "/p/9"; "/p/10"; "/p/11"] empty_state))
  = ["/p/11"; "/p/10"; "/p/9"; "/p/8"; "/p/7"; "/p/6"; "/p/5"; "/p/4";
     "/p/3"; "/p/2"].
Proof. vm_compute. reflexivity. Qed.

(** C8 fails on a list that holds a path twice, and the program builds
    such lists itself.  The folders ["/g/x "] and ["/g/x"] are recorded
    one after the other as game paths; written to the INI file and read
    back at the next start, both come out as ["/g/x"], the blank having
    been stripped.  Recording ["/g/x"] once more then drops the first of
    the two only ([list.remove]) and puts the path in front: it is in the
    list twice, not moved to the front of a list without it. *)
Theorem repeated_recent_path_survives :
  let st0 := record_all calm game ["/g/x "; "/g/x"] empty_state in
  let st1 := reload st0 in
  let st2 := fst (add_to_recent_paths calm game "/g/x" st1) in
  recent_game (recent_paths st0) = ["/g/x"; "/g/x "]
  /\ config_file st0 = Some (config_of st0)
  /\ recent_game (recent_paths st1) = ["/g/x"; "/g/x"]
  /\ recent_game (recent_paths st2) = ["/g/x"; "/g/x"]
  /\ count_occ String.string_dec (recent_game (recent_paths st2)) "/g/x" = 2
  /\ record_recent "a" ["a"; "b"; "a"] = ["a"; "b"; "a"].
Proof. cbv zeta. split_and!; vm_compute; reflexivity. Qed.

(** ** Round trip through the stores *)

















Lemma config_of_recent (st : state) :
  let r := recent_paths st in
  has_section (config_of st) "RecentPaths" = true
  /\ config_get (config_of st) "RecentPaths" "game_paths" ""
     = PyStr.strip (PyStr.join "|" (take max_recent_items (recent_game r)))
  /\ config_get (config_of st) "RecentPaths" "mods_paths" ""
     = PyStr.strip (PyStr.join "|" (take max_recent_items (recent_mods r)))
  /\ config_get (config_of st) "RecentPaths" "files_paths" ""
     = PyStr.strip (PyStr.join "|" (take max_recent_items (recent_files r))).
Proof. unfold has_section, config_get, config_of. by simplify_map_eq. Qed.







(** * Further properties of the registry operations *)

Lemma lookup_renumber (l : list mod_data) (k : nat) :
  renumber l !! k = set_priority (Z.of_nat k) <$> l !! k.
Proof. unfold renumber. by rewrite list_lookup_imap. Qed.

Lemma length_renumber (l : list mod_data) : length (renumber l) = length l.
Proof. unfold renumber. apply length_imap. Qed.

Lemma find_mod_Some (mod_name : string) (l : list mod_data) (i : nat)
    (m : mod_data) :
  find_mod mod_name l = Some (i, m) <->
  l !! i = Some m /\ name m = mod_name
  /\ (forall j y, l !! j = Some y -> j < i -> name y <> mod_name).
Proof. unfold find_mod. apply (list_find_Some (fun y => name y = mod_name)). Qed.

(** The registry in memory after each method, whatever the write does. *)
Lemma toggle_mod_mods (e : env) (mod_name : string) (st : state) :
  mods_data (fst (toggle_mod e (Some mod_name) st))
  = fst (toggle_first mod_name (mods_data st)).
Proof.
  run_M. destruct (toggle_first mod_name (mods_data st)) as [l lv]. simpl.
  destruct (mods_write e), lv; reflexivity.
Qed.

Lemma move_mod_mods (e : env) (mod_name : string) (d : Z) (i : nat)
    (m : mod_data) (st : state) :
  find_mod mod_name (mods_data st) = Some (i, m) ->
  (0 <= Z.of_nat i + d < Z.of_nat (length (mods_data st)))%Z ->
  mods_data (fst (move_mod e (Some mod_name) d st))
  = renumber (swap i (Z.to_nat (Z.of_nat i + d)) (mods_data st)).
Proof.
  intros Hf Hr. run_M. rewrite Hf.
  replace (0 <=? Z.of_nat i + d)%Z with true by (symmetry; apply Z.leb_le; lia).
  replace (Z.of_nat i + d <? Z.of_nat (length (mods_data st)))%Z with true
    by (symmetry; apply Z.ltb_lt; lia).
  simpl. destruct (mods_write e); reflexivity.
Qed.

Lemma install_mod_file_mods (e : env) (p : string) (st : state) :
  copy_result e = CopyOk ->
  mods_data (fst (install_mod_file e p st))
  = mods_data st ++ [file_entry (length (mods_data st)) p].
Proof.
  intros He. run_M. rewrite He.
  destruct (payload_at st (PyStr.basename p)) as [[]|], (mods_write e);
    reflexivity.
Qed.


(** X1.  Whenever an install, removal, toggle or move ends with a status
    message, [mods_data.json] holds exactly the registry in memory. *)
Theorem status_means_stored (e : env) (a : action) (st : state) (msg : string) :
  snd (perform e a st) = Status msg ->
  mods_file (fst (perform e a st)) = JsonDoc (mods_data (fst (perform e a st))).
Proof.
  destruct a as [p|p|sel confirm|sel|sel direction]; simpl.
  - run_M.
    destruct (copy_result e); simpl; [|done|];
      destruct (payload_at st (PyStr.basename p)) as [[]|]; simpl; try done;
      destruct (mods_write e); simpl; done.
  - run_M.
    destruct (copy_result e); simpl; try done;
      destruct (payload_at st (PyStr.basename p)); simpl; try done;
      destruct (mods_write e); simpl; done.
  - destruct sel as [mod_name|]; [|done]. destruct confirm; [|done].
    run_M.
    destruct (find_mod _ _) as [[i m]|]; [|done].
    destruct (remove_payload_cases e m st) as [[d ->] | [d ->]]; [|done].
    simpl. destruct (mods_write e); simpl; done.
  - destruct sel as [mod_name|]; [|done].
    run_M.
    destruct (toggle_first mod_name (mods_data st)) as [l lv]. simpl.
    destruct (mods_write e), lv; simpl; done.
  - destruct sel as [mod_name|]; [|done].
    run_M.
    destruct (find_mod _ _) as [[i m]|]; [|done].
    destruct (_ && _)%bool; [|done]. simpl.
    destruct (mods_write e); simpl; done.
Qed.

Lemma status_means_stored_witness :
  snd (perform calm (MoveMod (Some "B") (-1)) two_mods) = Status "Moved 'B' up!"
  /\ mods_file (fst (perform calm (MoveMod (Some "B") (-1)) two_mods))
     = JsonDoc (mods_data (fst (perform calm (MoveMod (Some "B") (-1)) two_mods))).
Proof.
  assert (H : snd (perform calm (MoveMod (Some "B") (-1)) two_mods)
              = Status "Moved 'B' up!") by (vm_compute; reflexivity).
  exact (conj H (status_means_stored calm _ two_mods _ H)).
Defined.

(** X2.  An action that ends with a warning or without any report (no
    selection, confirmation declined, name not found, move past either
    end) has changed nothing: memory, stores and mods folder are as
    before. *)
Theorem silent_action_changes_nothing (e : env) (a : action) (st : state) :
  snd (perform e a st) = Nothing \/ (exists w, snd (perform e a st) = Warning w) ->
  fst (perform e a st) = st.
Proof.
  intros H.
  assert (Hn : forall o, o = snd (perform e a st) ->
                 match o with Status _ | ErrorBox _ | Uncaught _ => False
                            | _ => True end).
  { intros o ->. destruct H as [-> | [w ->]]; exact I. }
  clear H. revert Hn.
  destruct a as [p|p|sel confirm|sel|sel direction]; simpl; intros Hn.
  - specialize (Hn _ eq_refl). revert Hn. run_M.
    destruct (copy_result e); simpl; [|done|];
      destruct (payload_at st (PyStr.basename p)) as [[]|]; simpl; try done;
      destruct (mods_write e); simpl; done.
  - specialize (Hn _ eq_refl). revert Hn. run_M.
    destruct (copy_result e); simpl; try done;
      destruct (payload_at st (PyStr.basename p)); simpl; try done;
      destruct (mods_write e); simpl; done.
  - destruct sel as [mod_name|]; [|done]. destruct confirm; [|done].
    specialize (Hn _ eq_refl). revert Hn. run_M.
    destruct (find_mod _ _) as [[i m]|]; [|done].
    destruct (remove_payload_cases e m st) as [[d ->] | [d ->]]; [|done].
    simpl. destruct (mods_write e); simpl; done.
  - destruct sel as [mod_name|]; [|done].
    specialize (Hn _ eq_refl). revert Hn. run_M.
    destruct (toggle_first mod_name (mods_data st)) as [l lv]. simpl.
    destruct (mods_write e), lv; simpl; done.
  - destruct sel as [mod_name|]; [|done].
    specialize (Hn _ eq_refl). revert Hn. run_M.
    destruct (find_mod _ _) as [[i m]|]; [|done].
    destruct (_ && _)%bool; [|done]. simpl.
    destruct (mods_write e); simpl; done.
Qed.

Lemma silent_action_changes_nothing_witness :
  (snd (perform calm (RemoveMod (Some "A") false) two_mods) = Nothing
   \/ exists w, snd (perform calm (RemoveMod (Some "A") false) two_mods) = Warning w)
  /\ fst (perform calm (RemoveMod (Some "A") false) two_mods) = two_mods.
Proof.
  assert (H : snd (perform calm (RemoveMod (Some "A") false) two_mods) = Nothing
              \/ exists w, snd (perform calm (RemoveMod (Some "A") false) two_mods)
                           = Warning w) by (left; reflexivity).
  exact (conj H (silent_action_changes_nothing calm _ two_mods H)).
Defined.

Lemma set_priority_twice (p q : Z) (m : mod_data) :
  set_priority p (set_priority q m) = set_priority p m.
Proof. reflexivity. Qed.

Lemma lookup_swap (l : list mod_data) (a b k : nat) (x y : mod_data) :
  l !! a = Some x -> l !! b = Some y ->
  swap a b l !! k
  = if decide (k = b) then Some x else if decide (k = a) then Some y else l !! k.
Proof.
  intros Ha Hb. unfold swap. rewrite Ha, Hb.
  pose proof (lookup_lt_Some _ _ _ Ha). pose proof (lookup_lt_Some _ _ _ Hb).
  destruct (decide (k = b)) as [->|Hkb].
  - apply list_lookup_insert_eq. by rewrite length_insert.
  - rewrite list_lookup_insert_ne by done.
    destruct (decide (k = a)) as [->|Hka].
    + by apply list_lookup_insert_eq.
    + by rewrite list_lookup_insert_ne.
Qed.

Lemma length_swap (l : list mod_data) (a b : nat) :
  length (swap a b l) = length l.
Proof.
  unfold swap. destruct (l !! a), (l !! b); try done.
  by rewrite !length_insert.
Qed.

Lemma renumber_id (l : list mod_data) : in_order l -> renumber l = l.
Proof.
  intros Ho. apply list_eq. intros k. rewrite lookup_renumber.
  destruct (l !! k) as [m|] eqn:Hk; [|done]. simpl.
  rewrite <- (in_order_lookup _ _ _ Ho Hk). by destruct m.
Qed.

(** X3.  [toggle_mod] flips the [enabled] flag of the first entry with
    the selected name and touches nothing else in the registry; toggling
    the same name again gives back the registry as it was. *)
Theorem toggle_twice_restores
    (e1 e2 : env) (mod_name : string) (i : nat) (m : mod_data) (st : state) :
  find_mod mod_name (mods_data st) = Some (i, m) ->
  let st1 := fst (toggle_mod e1 (Some mod_name) st) in
  mods_data st1 = <[i := set_enabled (negb (enabled m)) m]> (mods_data st)
  /\ mods_data (fst (toggle_mod e2 (Some mod_name) st1)) = mods_data st.
Proof.
  intros Hf. cbv zeta.
  assert (H1 : mods_data (fst (toggle_mod e1 (Some mod_name) st))
               = <[i := set_enabled (negb (enabled m)) m]> (mods_data st)).
  { rewrite toggle_mod_mods. unfold toggle_first. by rewrite Hf. }
  split; [exact H1|].
  rewrite toggle_mod_mods, H1.
  apply find_mod_Some in Hf as (Hi & Hn & Hleast).
  pose proof (lookup_lt_Some _ _ _ Hi) as Hlt.
  assert (Hf1 : find_mod mod_name
                  (<[i := set_enabled (negb (enabled m)) m]> (mods_data st))
                = Some (i, set_enabled (negb (enabled m)) m)).
  { apply find_mod_Some. split; [by apply list_lookup_insert_eq|].
    split; [exact Hn|]. intros j y Hj Hji.
    rewrite list_lookup_insert_ne in Hj by lia. by apply (Hleast j). }
  unfold toggle_first. rewrite Hf1. simpl.
  rewrite list_insert_insert_eq. apply list_insert_id.
  rewrite Hi. f_equal. destruct m as [? ? ? ? b ? ?]. simpl. by destruct b.
Qed.

Lemma toggle_twice_restores_witness :
  find_mod "B" (mods_data two_mods) = Some (1, folder_entry 1 "/src/B")
  /\ mods_data (fst (toggle_mod calm (Some "B")
                       (fst (toggle_mod calm (Some "B") two_mods))))
     = mods_data two_mods.
Proof.
  assert (H : find_mod "B" (mods_data two_mods) = Some (1, folder_entry 1 "/src/B"))
    by (vm_compute; reflexivity).
  exact (conj H (proj2 (toggle_twice_restores calm calm "B" 1 _ two_mods H))).
Defined.

(** X4.  What a move does: when the selected name stands for the entry
    at index [i] and [i + direction] is an index of the list, that entry
    goes to index [i + direction], the entry that was there comes to
    index [i], every other entry stays where it is, and each entry's
    priority becomes its index; no entry is added or lost. *)
Theorem move_swaps_two_entries
    (e : env) (mod_name : string) (d : Z) (i : nat) (m n : mod_data)
    (st : state) :
  find_mod mod_name (mods_data st) = Some (i, m) ->
  (0 <= Z.of_nat i + d < Z.of_nat (length (mods_data st)))%Z ->
  mods_data st !! Z.to_nat (Z.of_nat i + d) = Some n ->
  let j := Z.to_nat (Z.of_nat i + d) in
  let l' := mods_data (fst (move_mod e (Some mod_name) d st)) in
  length l' = length (mods_data st)
  /\ l' !! j = Some (set_priority (Z.of_nat j) m)
  /\ (i <> j -> l' !! i = Some (set_priority (Z.of_nat i) n))
  /\ (forall k, k <> i -> k <> j ->
        l' !! k = set_priority (Z.of_nat k) <$> mods_data st !! k).
Proof.
  intros Hf Hr Hn. cbv zeta.
  rewrite (move_mod_mods e _ _ _ _ _ Hf Hr).
  apply find_mod_Some in Hf as (Hi & _).
  split; [by rewrite length_renumber, length_swap|].
  split; [|split].
  - rewrite lookup_renumber, (lookup_swap _ _ _ _ _ _ Hi Hn).
    by rewrite decide_True.
  - intros Hij. rewrite lookup_renumber, (lookup_swap _ _ _ _ _ _ Hi Hn).
    rewrite decide_False by done. by rewrite decide_True.
  - intros k Hki Hkj. rewrite lookup_renumber, (lookup_swap _ _ _ _ _ _ Hi Hn).
    by rewrite !decide_False.
Qed.

Lemma move_swaps_two_entries_witness :
  find_mod "B" (mods_data two_mods) = Some (1, folder_entry 1 "/src/B")
  /\ (0 <= Z.of_nat 1 + -1 < Z.of_nat (length (mods_data two_mods)))%Z
  /\ mods_data two_mods !! Z.to_nat (Z.of_nat 1 + -1)
     = Some (file_entry 0 "/src/A.zip")
  /\ mods_data (fst (move_mod calm (Some "B") (-1) two_mods)) !! 0
     = Some (set_priority 0 (folder_entry 1 "/src/B")).
Proof.
  assert (Hf : find_mod "B" (mods_data two_mods) = Some (1, folder_entry 1 "/src/B"))
    by (vm_compute; reflexivity).
  assert (Hr : (0 <= Z.of_nat 1 + -1 < Z.of_nat (length (mods_data two_mods)))%Z)
    by (vm_compute; split; [discriminate | reflexivity]).
  assert (Hn : mods_data two_mods !! Z.to_nat (Z.of_nat 1 + -1)
               = Some (file_entry 0 "/src/A.zip")) by reflexivity.
  destruct (move_swaps_two_entries calm "B" (-1) 1 _ _ two_mods Hf Hr Hn)
    as (_ & H & _).
  exact (conj Hf (conj Hr (conj Hn H))).
Defined.

(** X5.  Moving an entry up and then moving the same name down puts every
    entry back at its index, with priorities equal to the indices; for a
    registry whose priorities were the indices the registry is as it was
    before the two moves. *)
Theorem move_up_then_down_restores
    (e1 e2 : env) (mod_name : string) (i : nat) (m : mod_data) (st : state) :
  find_mod mod_name (mods_data st) = Some (i, m) -> 0 < i ->
  let st1 := fst (move_mod e1 (Some mod_name) (-1) st) in
  let st2 := fst (move_mod e2 (Some mod_name) 1 st1) in
  mods_data st2 = renumber (mods_data st)
  /\ (in_order (mods_data st) -> mods_data st2 = mods_data st).
Proof.
  intros Hf Hpos. cbv zeta.
  pose proof Hf as Hf'. apply find_mod_Some in Hf' as (Hi & Hname & Hleast).
  pose proof (lookup_lt_Some _ _ _ Hi) as Hlt.
  destruct (lookup_lt_is_Some_2 (mods_data st) (i - 1)) as [n Hn]; [lia|].
  assert (Hr1 : (0 <= Z.of_nat i + -1 < Z.of_nat (length (mods_data st)))%Z) by lia.
  pose proof (move_mod_mods e1 _ _ _ _ _ Hf Hr1) as H1.
  replace (Z.to_nat (Z.of_nat i + -1)) with (i - 1) in H1 by lia.
  set (l1 := mods_data (fst (move_mod e1 (Some mod_name) (-1) st))) in *.
  assert (Hl1 : forall k, l1 !! k
            = set_priority (Z.of_nat k)
              <$> (if decide (k = i - 1) then Some m
                   else if decide (k = i) then Some n else mods_data st !! k)).
  { intros k. rewrite H1, lookup_renumber.
    by rewrite (lookup_swap _ _ _ _ _ _ Hi Hn). }
  assert (Hlen1 : length l1 = length (mods_data st))
    by (by rewrite H1, length_renumber, length_swap).
  assert (Hf1 : find_mod mod_name l1
                = Some (i - 1, set_priority (Z.of_nat (i - 1)) m)).
  { apply find_mod_Some. split; [|split].
    - rewrite Hl1. by rewrite decide_True.
    - exact Hname.
    - intros j y Hj Hji. rewrite Hl1 in Hj.
      rewrite !decide_False in Hj by lia.
      destruct (mods_data st !! j) as [y0|] eqn:Hy0; [|done].
      simpl in Hj. injection Hj as <-. simpl. apply (Hleast j y0 Hy0). lia. }
  assert (Hr2 : (0 <= Z.of_nat (i - 1) + 1 < Z.of_nat (length l1))%Z) by lia.
  pose proof (move_mod_mods e2 mod_name 1 (i - 1) _
                (fst (move_mod e1 (Some mod_name) (-1) st)) Hf1 Hr2) as H2.
  replace (Z.to_nat (Z.of_nat (i - 1) + 1)) with i in H2 by lia.
  fold l1 in H2.
  assert (Hres : mods_data (fst (move_mod e2 (Some mod_name) 1
                   (fst (move_mod e1 (Some mod_name) (-1) st))))
                 = renumber (mods_data st)).
  { rewrite H2. apply list_eq. intros k. rewrite !lookup_renumber.
    assert (Ha : l1 !! (i - 1) = Some (set_priority (Z.of_nat (i - 1)) m))
      by (rewrite Hl1; by rewrite decide_True).
    assert (Hb : l1 !! i = Some (set_priority (Z.of_nat i) n)).
    { rewrite Hl1. rewrite decide_False by lia. by rewrite decide_True. }
    rewrite (lookup_swap _ _ _ _ _ _ Ha Hb).
    destruct (decide (k = i)) as [->|Hki]; [by rewrite Hi|].
    destruct (decide (k = i - 1)) as [->|Hki1]; [by rewrite Hn|].
    rewrite Hl1, !decide_False by done.
    by destruct (mods_data st !! k). }
  split; [exact Hres|]. intros Ho. rewrite Hres. by apply renumber_id.
Qed.

Lemma move_up_then_down_restores_witness :
  find_mod "B" (mods_data two_mods) = Some (1, folder_entry 1 "/src/B")
  /\ 0 < 1
  /\ mods_data (fst (move_mod calm (Some "B") 1
                       (fst (move_mod calm (Some "B") (-1) two_mods))))
     = renumber (mods_data two_mods).
Proof.
  assert (Hf : find_mod "B" (mods_data two_mods) = Some (1, folder_entry 1 "/src/B"))
    by (vm_compute; reflexivity).
  assert (Hp : 0 < 1) by lia.
  exact (conj Hf (conj Hp
           (proj1 (move_up_then_down_restores calm calm "B" 1 _ two_mods Hf Hp)))).
Defined.

Lemma remove_payload_done (e : env) (m : mod_data) (st st' : state) :
  remove_payload e m st = (st', inr tt) -> file_path m <> EmptyString ->
  st' = if mod_path_exists e st (file_path m)
        then set_disk (delete (file_path m) (disk st)) st
        else st.
Proof.
  unfold remove_payload, rmtree, os_remove, unlink, get,
    mbind, M_bind, bind, mret, M_ret, ret.
  intros H Hne.
  destruct (mod_path_exists e st (file_path m)).
  - destruct (String.eqb _ _),
             (payload_at st (file_path m)) as [[]|],
             (delete_ok e), (rmtree_leaves e);
      try discriminate; injection H as <-; by destruct (file_path m).
  - by injection H as <-.
Qed.

(** What a removal that gets past the deletion leaves behind. *)
Lemma remove_mod_effect
    (e : env) (mod_name : string) (i : nat) (m : mod_data) (st : state) :
  find_mod mod_name (mods_data st) = Some (i, m) ->
  snd (remove_mod e (Some mod_name) true st) <> ErrorBox DeleteError ->
  let st' := fst (remove_mod e (Some mod_name) true st) in
  S (length (mods_data st')) = length (mods_data st)
  /\ (forall k, mods_data st' !! k
        = set_priority (Z.of_nat k)
          <$> (if decide (k < i) then mods_data st !! k
               else mods_data st !! S k))
  /\ (file_path m <> EmptyString ->
      disk st' = if mod_path_exists e st (file_path m)
                 then delete (file_path m) (disk st)
                 else disk st).
Proof.
  intros Hf Hok. cbv zeta.
  pose proof Hf as Hf'. apply find_mod_Some in Hf' as (Hi & _).
  pose proof (lookup_lt_Some _ _ _ Hi) as Hlt.
  revert Hok. run_M. rewrite Hf.
  destruct (remove_payload e m st) as [st1 [ex|[]]] eqn:Hrm.
  { destruct (remove_payload_cases e m st) as [[d Hd] | [d Hd]];
      rewrite Hd in Hrm; [discriminate|].
    injection Hrm as <- <-. done. }
  intros _.
  assert (Hm1 : mods_data st1 = mods_data st).
  { destruct (remove_payload_cases e m st) as [[d Hd] | [d Hd]];
      rewrite Hd in Hrm; [|discriminate]. by injection Hrm as <-. }
  simpl.
  destruct (mods_write e) eqn:Hw; simpl; rewrite ?Hm1;
    (split; [rewrite length_renumber, length_delete by eauto; lia|]);
    (split; [intros k; rewrite lookup_renumber, list_lookup_delete;
             by destruct (decide (k < i))|]);
    intros Hne; rewrite (remove_payload_done _ _ _ _ Hrm Hne);
    by destruct (mod_path_exists e st (file_path m)).
Qed.



(** A payload that is there but that [os.path.exists] does not see: the
    entry is dropped and the payload stays in the mods folder. *)
Example unseen_payload_is_left :
  let e := Env (fun _ => false) CopyOk true WriteOk true None None in
  map name (mods_data (fst (remove_mod e (Some "A") true two_mods))) = ["B"]
  /\ disk (fst (remove_mod e (Some "A") true two_mods)) = disk two_mods.
Proof. split; vm_compute; reflexivity. Qed.

Lemma ids_by_index_lookup (l : list mod_data) (k : nat) (y : mod_data) :
  ids_by_index l -> l !! k = Some y -> id y = Z.of_nat k.
Proof.
  unfold ids_by_index. intros H Hy.
  assert (Hl := lookup_lt_Some _ _ _ Hy).
  assert (H1 : map id l !! k = Some (id y)).
  { change (map id) with (fmap (M:=list) id).
    rewrite list_lookup_fmap, Hy. reflexivity. }
  rewrite H in H1.
  change (map Z.of_nat) with (fmap (M:=list) Z.of_nat) in H1.
  rewrite list_lookup_fmap, lookup_seq_lt in H1 by done.
  simpl in H1. congruence.
Qed.

(** Installs into a registry whose ids are the indices keep them so. *)
Lemma ids_by_index_append (l : list mod_data) (m : mod_data) :
  id m = Z.of_nat (length l) -> ids_by_index l -> ids_by_index (l ++ [m]).
Proof.
  unfold ids_by_index. intros Hp Hl.
  rewrite map_app, length_app, Hl. simpl.
  rewrite Nat.add_1_r, seq_snoc, map_app, Hp. reflexivity.
Qed.

(** X7.  Ids are not kept unique.  In a registry whose ids are the
    indices (as installs alone produce), once an entry other than the last
    has been removed, the next file install gives the new entry the id the
    last entry already has: removal renumbers priorities but not ids,
    and an install takes the current length as id. *)
Theorem install_after_removal_repeats_id
    (e1 e2 : env) (mod_name p : string) (i : nat) (m : mod_data) (st : state) :
  ids_by_index (mods_data st) ->
  find_mod mod_name (mods_data st) = Some (i, m) ->
  S i < length (mods_data st) ->
  snd (remove_mod e1 (Some mod_name) true st) <> ErrorBox DeleteError ->
  copy_result e2 = CopyOk ->
  let st1 := fst (remove_mod e1 (Some mod_name) true st) in
  let st2 := fst (install_mod_file e2 p st1) in
  exists old new,
    mods_data st2 !! (length (mods_data st) - 2) = Some old
    /\ mods_data st2 !! (length (mods_data st) - 1) = Some new
    /\ id old = id new
    /\ ~ NoDup (map id (mods_data st2)).
Proof.
  intros Hids Hf Hlast Hok Hc. cbv zeta.
  destruct (remove_mod_effect e1 mod_name i m st Hf Hok)
    as (Hlen & Hlook & _).
  set (l1 := mods_data (fst (remove_mod e1 (Some mod_name) true st))) in *.
  rewrite (install_mod_file_mods e2 p _ Hc). fold l1.
  set (N := length (mods_data st)) in *.
  destruct (lookup_lt_is_Some_2 (mods_data st) (N - 1)) as [y Hy]; [lia|].
  assert (Hold : l1 !! (N - 2) = Some (set_priority (Z.of_nat (N - 2)) y)).
  { rewrite Hlook. rewrite decide_False by lia.
    replace (S (N - 2)) with (N - 1) by lia. by rewrite Hy. }
  assert (Hl1 : length l1 = N - 1) by lia.
  exists (set_priority (Z.of_nat (N - 2)) y), (file_entry (length l1) p).
  assert (Hid : id (set_priority (Z.of_nat (N - 2)) y)
                = id (file_entry (length l1) p)).
  { simpl. rewrite (ids_by_index_lookup _ _ _ Hids Hy), Hl1. reflexivity. }
  split; [by rewrite lookup_app_l by lia|].
  split; [rewrite lookup_app_r by lia;
          by replace (N - 1 - length l1) with 0 by lia|].
  split; [exact Hid|].
  rewrite map_app. intros Hnd. apply NoDup_app in Hnd as (_ & Hdis & _).
  apply (Hdis (id (file_entry (length l1) p))).
  - rewrite <- Hid. change (map id) with (fmap (M:=list) id).
    apply list_elem_of_fmap_2. by apply list_elem_of_lookup_2 with (N - 2).
  - simpl. apply list_elem_of_here.
Qed.

Lemma install_after_removal_repeats_id_witness :
  ids_by_index (mods_data two_mods)
  /\ find_mod "A" (mods_data two_mods) = Some (0, file_entry 0 "/src/A.zip")
  /\ 1 < length (mods_data two_mods)
  /\ snd (remove_mod calm (Some "A") true two_mods) <> ErrorBox DeleteError
  /\ copy_result calm = CopyOk
  /\ ~ NoDup (map id (mods_data
        (fst (install_mod_file calm "/src/C.pak"
                (fst (remove_mod calm (Some "A") true two_mods)))))).
Proof.
  assert (Hi : ids_by_index (mods_data two_mods)) by reflexivity.
  assert (Hf : find_mod "A" (mods_data two_mods)
               = Some (0, file_entry 0 "/src/A.zip")) by (vm_compute; reflexivity).
  assert (Hl : 1 < length (mods_data two_mods)) by (vm_compute; lia).
  assert (Hok : snd (remove_mod calm (Some "A") true two_mods)
                <> ErrorBox DeleteError) by (vm_compute; discriminate).
  assert (Hc : copy_result calm = CopyOk) by reflexivity.
  destruct (install_after_removal_repeats_id calm calm "A" "/src/C.pak" 0 _
              two_mods Hi Hf Hl Hok Hc) as (old & new & _ & _ & _ & H).
  exact (conj Hi (conj Hf (conj Hl (conj Hok (conj Hc H))))).
Defined.

(** ** Restarting after a write *)





(** ** The list after an install *)






(** * Further properties of the path catalog *)

Lemma rstrip_idem (s : string) : PyStr.rstrip (PyStr.rstrip s) = PyStr.rstrip s.
Proof.
  induction s as [|c s IH]; [done|]. simpl.
  destruct (PyStr.rstrip s) as [|d r] eqn:Hr.
  - destruct (PyStr.is_space c) eqn:Hc; [done|]. simpl. by rewrite Hc.
  - change (PyStr.rstrip (String c (String d r)))
      with (match PyStr.rstrip (String d r) with
            | EmptyString =>
                if PyStr.is_space c then EmptyString else String c EmptyString
            | r' => String c r'
            end).
    by rewrite IH.
Qed.

Lemma lstrip_starts_clean (s : string) : starts_clean (PyStr.lstrip s).
Proof.
  induction s as [|c s IH]; simpl; [done|].
  destruct (PyStr.is_space c) eqn:Hc; [done|]. exact Hc.
Qed.

Lemma lstrip_clean (s : string) : starts_clean s -> PyStr.lstrip s = s.
Proof. destruct s as [|c s]; simpl; [done|]. by intros ->. Qed.

Lemma rstrip_starts_clean (s : string) :
  starts_clean s -> starts_clean (PyStr.rstrip s).
Proof.
  destruct s as [|c s]; simpl; [done|]. intros Hc.
  destruct (PyStr.rstrip s); [by rewrite Hc|done].
Qed.

Lemma strip_idem (s : string) : PyStr.strip (PyStr.strip s) = PyStr.strip s.
Proof.
  unfold PyStr.strip.
  rewrite (lstrip_clean (PyStr.rstrip (PyStr.lstrip s)))
    by apply rstrip_starts_clean, lstrip_starts_clean.
  apply rstrip_idem.
Qed.

Lemma lstrip_contains (c : ascii) (s : string) :
  PyStr.contains c s = false -> PyStr.contains c (PyStr.lstrip s) = false.
Proof.
  induction s as [|d s IH]; simpl; [done|]. intros H.
  apply orb_false_elim in H as [Hd Hs].
  destruct (PyStr.is_space d); [by apply IH|]. simpl. by rewrite Hd, Hs.
Qed.

Lemma rstrip_contains (c : ascii) (s : string) :
  PyStr.contains c s = false -> PyStr.contains c (PyStr.rstrip s) = false.
Proof.
  induction s as [|d s IH]; simpl; [done|]. intros H.
  apply orb_false_elim in H as [Hd Hs]. specialize (IH Hs).
  destruct (PyStr.rstrip s).
  - destruct (PyStr.is_space d); [done|]. simpl. by rewrite Hd.
  - change (PyStr.contains c (String d (String a s0)))
      with (Ascii.eqb d c || PyStr.contains c (String a s0))%bool.
    by rewrite Hd, IH.
Qed.

Lemma split_pieces (sep : ascii) (s : string) :
  Forall (fun w => PyStr.contains sep w = false) (PyStr.split sep s).
Proof.
  induction s as [|c s IH]; simpl; [by repeat constructor|].
  destruct (Ascii.eqb c sep) eqn:Hc; [by constructor|].
  destruct (PyStr.split sep s) as [|w ws].
  - repeat constructor. simpl. by rewrite Hc.
  - apply Forall_cons in IH as [Hw Hws]. constructor; [|done].
    simpl. by rewrite Hc, Hw.
Qed.

Lemma parse_paths_clean (s : string) : Forall clean_path (parse_paths s).
Proof.
  unfold parse_paths. apply Forall_forall. intros x Hx.
  apply list_elem_of_filter in Hx as [Ht Hx].
  change (map PyStr.strip) with (fmap (M:=list) PyStr.strip) in Hx.
  apply list_elem_of_fmap in Hx as (w & -> & Hw).
  split; [exact Ht|]. split; [|apply strip_idem].
  pose proof (split_pieces "|" s) as Hp.
  rewrite Forall_forall in Hp.
  unfold PyStr.strip. by apply rstrip_contains, lstrip_contains, Hp.
Qed.

Lemma load_list_clean (c : ini) (section option : string) (cur : list string) :
  Forall clean_path cur -> Forall clean_path (load_list c section option cur).
Proof.
  intros Hc. unfold load_list.
  destruct (PyStr.truthy _); [apply parse_paths_clean|exact Hc].
Qed.

(** X10.  Whatever the INI file holds, the recent and favourite lists of
    a session that has just started contain only entries that are not
    empty, have no ['|'] and no white space around them. *)
Theorem startup_lists_are_clean
    (cfg : option ini) (mf : json_file) (d : gmap string payload) :
  let st := startup cfg mf d in
  Forall clean_path (recent_game (recent_paths st))
  /\ Forall clean_path (recent_mods (recent_paths st))
  /\ Forall clean_path (recent_files (recent_paths st))
  /\ Forall clean_path (fav_game (favorites st))
  /\ Forall clean_path (fav_mods (favorites st)).
Proof.
  unfold startup, load_mods_data, load_config, fresh. simpl.
  destruct cfg as [c|]; simpl.
  - destruct (has_section c "RecentPaths"), (has_section c "Favorites"),
      mf; simpl; repeat split;
      try apply load_list_clean; constructor.
  - destruct mf; simpl; repeat split; constructor.
Qed.

(** ** Favourites *)

Lemma get_set_fav (k : path_type) (l l0 : list string) (f : favs) :
  get_fav k f = Some l0 -> get_fav k (set_fav k l f) = Some l.
Proof. by destruct k. Qed.

Lemma then_save_config_favorites (e : env) (ok : report) (st : state) :
  favorites (fst (then_save_config e ok st)) = favorites st
  /\ recent_paths (fst (then_save_config e ok st)) = recent_paths st
  /\ mods_data (fst (then_save_config e ok st)) = mods_data st
  /\ disk (fst (then_save_config e ok st)) = disk st
  /\ game_path (fst (then_save_config e ok st)) = game_path st
  /\ mods_folder (fst (then_save_config e ok st)) = mods_folder st.
Proof.
  unfold then_save_config, save_config.
  destruct (config_write_ok e), (config_cut e); simpl; done.
Qed.

(** X11.  [add_to_favorites] never stores a path twice.  For a kind that
    has favourites, the list afterwards is the list before, followed by
    the path exactly when the path is not empty, exists and was not in
    the list; a list without repetition stays without repetition. *)
Theorem favorites_stay_distinct
    (e : env) (k : path_type) (path : string) (l : list string) (st : state) :
  get_fav k (favorites st) = Some l ->
  let st' := fst (add_to_favorites e k path st) in
  get_fav k (favorites st')
  = Some (if (PyStr.truthy path && path_exists e path
              && negb (bool_decide (path ∈ l)))%bool
          then l ++ [path] else l)
  /\ (NoDup l -> forall l', get_fav k (favorites st') = Some l' -> NoDup l').
Proof.
  intros Hl. cbv zeta.
  assert (H : get_fav k (favorites (fst (add_to_favorites e k path st)))
              = Some (if (PyStr.truthy path && path_exists e path
                          && negb (bool_decide (path ∈ l)))%bool
                      then l ++ [path] else l)).
  { unfold add_to_favorites.
    destruct (PyStr.truthy path && path_exists e path)%bool; [|done].
    rewrite Hl. simpl. case_bool_decide; simpl; [done|].
    destruct (then_save_config_favorites e
                (Info ("Added to " +:+ path_type_name k +:+ " favorites!"))
                (set_favorites (set_fav k (l ++ [path]) (favorites st)) st))
      as (-> & _).
    simpl. by apply get_set_fav with l. }
  split; [exact H|]. intros Hnd l'. rewrite H. intros [= <-].
  destruct (PyStr.truthy path && path_exists e path)%bool; simpl; [|done].
  case_bool_decide as Hin; simpl; [done|].
  apply NoDup_app. split; [done|]. split; [|apply NoDup_singleton].
  intros x Hx Hx'. apply list_elem_of_singleton in Hx'. by subst.
Qed.

Lemma favorites_stay_distinct_witness :
  get_fav game (favorites with_favorite) = Some ["/games"]
  /\ get_fav game (favorites (fst (add_to_favorites calm game "/games" with_favorite)))
     = Some ["/games"]
  /\ get_fav game (favorites (fst (add_to_favorites calm game "/opt" with_favorite)))
     = Some ["/games"; "/opt"].
Proof.
  assert (H : get_fav game (favorites with_favorite) = Some ["/games"])
    by reflexivity.
  split; [exact H|]. split.
  - rewrite (proj1 (favorites_stay_distinct calm game "/games" _ with_favorite H)).
    vm_compute. reflexivity.
  - rewrite (proj1 (favorites_stay_distinct calm game "/opt" _ with_favorite H)).
    vm_compute. reflexivity.
Defined.

(** X12.  Adding a favourite and then removing the last entry of that
    list gives back the list as it was: for a non-empty existing path
    that was not yet a favourite, [add_to_favorites] followed by
    [remove_favorite] at index [len(list)] restores the favourites. *)
Theorem add_then_remove_favorite
    (e1 e2 : env) (k : path_type) (path : string) (l : list string)
    (st : state) :
  get_fav k (favorites st) = Some l ->
  PyStr.truthy path = true -> path_exists e1 path = true -> path ∉ l ->
  let st1 := fst (add_to_favorites e1 k path st) in
  let st2 := fst (remove_favorite e2 k (Some (length l)) st1) in
  get_fav k (favorites st1) = Some (l ++ [path])
  /\ favorites st2 = favorites st.
Proof.
  intros Hl Ht He Hin. cbv zeta.
  assert (H1 : favorites (fst (add_to_favorites e1 k path st))
               = set_fav k (l ++ [path]) (favorites st)).
  { unfold add_to_favorites. rewrite Ht, He, Hl. simpl.
    rewrite bool_decide_false by done.
    by destruct (then_save_config_favorites e1
                (Info ("Added to " +:+ path_type_name k +:+ " favorites!"))
                (set_favorites (set_fav k (l ++ [path]) (favorites st)) st))
      as (-> & _). }
  split; [rewrite H1; by apply get_set_fav with l|].
  unfold remove_favorite. rewrite H1, (get_set_fav k _ l _ Hl).
  rewrite length_app. simpl.
  replace (length l <? length l + 1)%nat with true
    by (symmetry; apply Nat.ltb_lt; lia).
  destruct (then_save_config_favorites e2 Silent
              (set_favorites
                 (set_fav k (delete (length l) (l ++ [path]))
                    (set_fav k (l ++ [path]) (favorites st)))
                 (fst (add_to_favorites e1 k path st)))) as (-> & _).
  simpl.
  assert (Hd : delete (length l) (l ++ [path]) = l).
  { clear. induction l as [|x l IH]; [done|]. simpl. by rewrite IH. }
  rewrite Hd. destruct k, (favorites st); simpl in *; congruence.
Qed.

Lemma add_then_remove_favorite_witness :
  get_fav game (favorites with_favorite) = Some ["/games"]
  /\ PyStr.truthy "/opt" = true /\ path_exists calm "/opt" = true
  /\ ("/opt" ∉ ["/games"])
  /\ favorites (fst (remove_favorite calm game (Some 1)
                       (fst (add_to_favorites calm game "/opt" with_favorite))))
     = favorites with_favorite.
Proof.
  assert (Hl : get_fav game (favorites with_favorite) = Some ["/games"])
    by reflexivity.
  assert (Ht : PyStr.truthy "/opt" = true) by reflexivity.
  assert (He : path_exists calm "/opt" = true) by reflexivity.
  assert (Hin : "/opt" ∉ ["/games"]).
  { intros H. apply list_elem_of_singleton in H. discriminate. }
  exact (conj Hl (conj Ht (conj He (conj Hin
           (proj2 (add_then_remove_favorite calm calm game "/opt" _
                     with_favorite Hl Ht He Hin)))))).
Defined.

(** ** Clearing the recent paths *)

Lemma reload_recent_paths (st : state) (c : ini) :
  config_file st = Some c -> has_section c "RecentPaths" = true ->
  recent_paths (reload st)
  = Recent (load_list c "RecentPaths" "game_paths" [])
           (load_list c "RecentPaths" "mods_paths" [])
           (load_list c "RecentPaths" "files_paths" []).
Proof.
  intros Hc Hs.
  unfold reload, startup, load_mods_data, load_config, fresh. simpl.
  rewrite Hc, Hs. simpl.
  destruct (has_section c "Favorites"), (mods_file st); reflexivity.
Qed.

(** X13.  After [clear_recent_paths] was confirmed and the INI file
    written, the recent list of that kind is empty, the other two are
    untouched, and a session started over the files finds the list of
    that kind empty as well. *)
Theorem cleared_recents_stay_cleared (e : env) (k : path_type) (st : state) :
  config_write_ok e = true ->
  let st' := fst (clear_recent_paths e k true st) in
  get_recent k (recent_paths st') = []
  /\ (forall k', k' <> k ->
        get_recent k' (recent_paths st') = get_recent k' (recent_paths st))
  /\ get_recent k (recent_paths (reload st')) = [].
Proof.
  intros Hc. cbv zeta.
  unfold clear_recent_paths, then_save_config, save_config. rewrite Hc. simpl.
  split; [apply get_set_recent|]. split; [intros k' Hk; by destruct k, k'|].
  set (st1 := set_recent_paths (set_recent k [] (recent_paths st)) st).
  destruct (config_of_recent st1) as (Cr & Crg & Crm & Crf).
  rewrite (reload_recent_paths (set_config_file (Some (config_of st1)) st1)
             (config_of st1) eq_refl Cr).
  assert (Hk : get_recent k (recent_paths st1) = []) by apply get_set_recent.
  unfold load_list. rewrite Crg, Crm, Crf.
  clearbody st1.
  destruct k; simpl in Hk; simpl; rewrite Hk; reflexivity.
Qed.

Lemma cleared_recents_stay_cleared_witness :
  config_write_ok calm = true
  /\ recent_files (recent_paths settled) = ["/dl/B"; "/dl/A.zip"]
  /\ get_recent files
       (recent_paths (reload (fst (clear_recent_paths calm files true settled))))
     = [].
Proof.
  assert (H : config_write_ok calm = true) by reflexivity.
  split; [exact H|]. split; [vm_compute; reflexivity|].
  exact (proj2 (proj2 (cleared_recents_stay_cleared calm files settled H))).
Defined.

(** ** Choosing the game folder *)

(** X14.  [select_game_path] with a chosen existing folder that passes
    the access test makes it the game path and the first recent game
    path in memory, and leaves mods folder and registry alone, whether
    or not the INI file can be written.  When [save_config] completes
    the status reports the path; when it raises, the error leaves the
    method, the new path staying in memory all the same.  When the
    access test fails the permission error is shown and nothing
    changes. *)
Theorem chosen_game_path_is_kept (e : env) (path : string) (st : state) :
  PyStr.truthy path = true -> path_exists e path = true ->
  let r := select_game_path e (Some path) true st in
  game_path (fst r) = path
  /\ head (recent_game (recent_paths (fst r))) = Some path
  /\ mods_folder (fst r) = mods_folder st
  /\ mods_data (fst r) = mods_data st
  /\ (config_write_ok e = true ->
      snd r = Done ("Game path set to: " ++ path))
  /\ (config_write_ok e = false ->
      snd r = Unhandled ConfigWriteError)
  /\ select_game_path e (Some path) false st = (st, ErrorShown "Permission Error").
Proof.
  intros Ht He. cbv zeta.
  unfold select_game_path, recent_step, then_save_config. rewrite Ht.
  split_and!; try (run_M; rewrite Ht, He; simpl;
                   destruct (config_write_ok e), (config_cut e); simpl; done);
    reflexivity.
Qed.

Lemma chosen_game_path_is_kept_witness :
  PyStr.truthy "/games/doom" = true /\ path_exists calm "/games/doom" = true
  /\ game_path (fst (select_game_path calm (Some "/games/doom") true two_mods))
     = "/games/doom".
Proof.
  assert (Ht : PyStr.truthy "/games/doom" = true) by reflexivity.
  assert (He : path_exists calm "/games/doom" = true) by reflexivity.
  exact (conj Ht (conj He
           (proj1 (chosen_game_path_is_kept calm "/games/doom" two_mods Ht He)))).
Defined.

(** ** Adding a mod through the dialog *)

(** X15.  An install started from the add-mod dialog is given up when
    the INI file cannot be written: for a chosen, readable, existing file
    or folder, [add_to_recent_paths] raises, an error box is shown and the
    install is never called, so registry, registry store and mods folder
    are as before, although the copy itself could have succeeded; the
    path is nevertheless the first recent file in memory. *)
Theorem unwritable_config_blocks_install (e : env) (path : string) (st : state) :
  PyStr.truthy path = true -> path_exists e path = true ->
  config_write_ok e = false ->
  (let r := add_mod_file_enhanced e (Some path) Readable st in
   snd r = RecentFailedBox
   /\ mods_data (fst r) = mods_data st
   /\ mods_file (fst r) = mods_file st
   /\ disk (fst r) = disk st
   /\ head (recent_files (recent_paths (fst r))) = Some path)
  /\ (let r := add_mod_folder_enhanced e (Some path) Readable st in
      snd r = RecentFailedBox
      /\ mods_data (fst r) = mods_data st
      /\ mods_file (fst r) = mods_file st
      /\ disk (fst r) = disk st
      /\ head (recent_files (recent_paths (fst r))) = Some path).
Proof.
  intros Ht He Hc. cbv zeta.
  unfold add_mod_file_enhanced, add_mod_folder_enhanced. rewrite Ht.
  run_M. rewrite Ht, He, Hc. simpl. destruct (config_cut e); simpl; done.
Qed.

Lemma unwritable_config_blocks_install_witness :
  PyStr.truthy "/dl/C.pak" = true
  /\ path_exists (with_config_write_ok false calm) "/dl/C.pak" = true
  /\ config_write_ok (with_config_write_ok false calm) = false
  /\ mods_data (fst (add_mod_file_enhanced
                       (with_config_write_ok false calm)
                       (Some "/dl/C.pak") Readable two_mods))
     = mods_data two_mods.
Proof.
  assert (Ht : PyStr.truthy "/dl/C.pak" = true) by reflexivity.
  assert (He : path_exists (with_config_write_ok false calm) "/dl/C.pak" = true)
    by reflexivity.
  assert (Hc : config_write_ok (with_config_write_ok false calm)
               = false) by reflexivity.
  destruct (unwritable_config_blocks_install _ "/dl/C.pak" two_mods Ht He Hc)
    as [(_ & H & _) _].
  exact (conj Ht (conj He (conj Hc H))).
Defined.

(** * Properties of the launcher *)

Lemma lower_char_not_A (c : ascii) : Ascii.eqb (PyOs.lower_char c) "A" = false.
Proof. destruct c as [[] [] [] [] [] [] [] []]; reflexivity. Qed.

Lemma lower_no_A (s : string) : PyStr.contains "A" (PyOs.lower s) = false.
Proof.
  induction s as [|c s IH]; [done|]. simpl.
  by rewrite lower_char_not_A, IH.
Qed.

Lemma endswith_contains (suffix s : string) (c : ascii) :
  PyOs.endswith suffix s = true -> PyStr.contains c suffix = true ->
  PyStr.contains c s = true.
Proof.
  intros He Hc. induction s as [|d s IH].
  - destruct suffix; [done|]. simpl in He. discriminate.
  - change (PyOs.endswith suffix (String d s))
      with (String.eqb (String d s) suffix || PyOs.endswith suffix s)%bool in He.
    apply orb_true_iff in He as [He|He].
    + apply String.eqb_eq in He. by rewrite He.
    + simpl. rewrite (IH He). apply orb_true_r.
Qed.

Lemma endswith_AppImage_lower (f : string) :
  PyOs.endswith ".AppImage" (PyOs.lower f) = false.
Proof.
  destruct (PyOs.endswith ".AppImage" (PyOs.lower f)) eqn:He; [|done].
  pose proof (endswith_contains _ _ "A" He eq_refl) as Hc.
  by rewrite lower_no_A in Hc.
Qed.

Lemma lower_app (a b : string) :
  PyOs.lower (a +:+ b) = PyOs.lower a +:+ PyOs.lower b.
Proof. induction a as [|c a IH]; [done|]. simpl. by rewrite IH. Qed.

Lemma length_append (a b : string) :
  String.length (a +:+ b) = String.length a + String.length b.
Proof. induction a as [|c a IH]; [done|]. simpl. by rewrite IH. Qed.

Lemma endswith_app (suffix a b : string) :
  String.length suffix <= String.length b ->
  PyOs.endswith suffix (a +:+ b) = PyOs.endswith suffix b.
Proof.
  intros Hl. induction a as [|c a IH]; [done|].
  change (PyOs.endswith suffix (String c a +:+ b))
    with (String.eqb (String c (a +:+ b)) suffix
          || PyOs.endswith suffix (a +:+ b))%bool.
  rewrite IH.
  replace (String.eqb (String c (a +:+ b)) suffix) with false; [done|].
  symmetry. apply String.eqb_neq. intros H.
  apply (f_equal String.length) in H. simpl in H.
  rewrite length_append in H. lia.
Qed.

Lemma appimage_name_rejected (stem : string) :
  is_executable_name (stem +:+ ".AppImage") = false.
Proof.
  unfold is_executable_name.
  rewrite endswith_AppImage_lower, lower_app.
  rewrite !endswith_app by (simpl; lia). reflexivity.
Qed.

(** X16.  The launcher never finds an AppImage.  The file names are
    lower-cased before they are compared with the three endings, so the
    ending ['.AppImage'] can never match: a name counts as executable
    exactly when its lower-cased form ends in ['.exe'] or ['.sh'], a name
    ending in ['.AppImage'] is never one, and, whatever the path and
    whatever [str.isdigit] accepts, a launch that is not made through
    Steam from a game folder that holds nothing but such files ends with
    the error that no executable was found. *)
Theorem appimage_is_never_found :
  (forall f, is_executable_name f
             = (PyOs.endswith ".exe" (PyOs.lower f)
                || PyOs.endswith ".sh" (PyOs.lower f))%bool)
  /\ (forall stem, is_executable_name (stem +:+ ".AppImage") = false)
  /\ (forall isdigit w game_path stems,
        PyStr.truthy game_path = true -> game_exists w = true ->
        game_isdir w = true ->
        listdir w = Some (map (fun s => s +:+ ".AppImage") stems) ->
        through_steam w = false ->
        launch_game isdigit w game_path
        = LaunchError "No executable found in the selected folder!").
Proof.
  split; [|split].
  - intros f. unfold is_executable_name.
    by rewrite endswith_AppImage_lower, orb_false_r.
  - apply appimage_name_rejected.
  - intros isdigit w game_path stems Ht He Hd Hl Hs.
    assert (Hdirect : launch_direct w game_path
                      = LaunchError "No executable found in the selected folder!").
    { unfold launch_direct. rewrite Hd, Hl. simpl.
      replace (filter (fun f => is_executable_name f = true)
                 (map (fun s => s +:+ ".AppImage") stems)) with (@nil string);
        [done|].
      symmetry. clear Hl. induction stems as [|s stems IH]; [done|]. simpl.
      rewrite filter_cons_False; [exact IH|].
      by rewrite appimage_name_rejected. }
    unfold launch_game. rewrite Ht, He, Hs. simpl.
    destruct (steam_id_of isdigit game_path); [|exact Hdirect].
    by rewrite andb_false_r.
Qed.

Lemma appimage_is_never_found_witness :
  PyStr.truthy "/s/steamapps/compatdata/220/pfx" = true
  /\ steam_id_of ascii_isdigit "/s/steamapps/compatdata/220/pfx" = Some "220"
  /\ launch_game ascii_isdigit
       (LaunchEnv true true (Some (map (fun s => s +:+ ".AppImage") ["Doom"; "Quake"]))
          false None true) "/s/steamapps/compatdata/220/pfx"
     = LaunchError "No executable found in the selected folder!".
Proof.
  assert (Ht : PyStr.truthy "/s/steamapps/compatdata/220/pfx" = true)
    by reflexivity.
  assert (Hs : steam_id_of ascii_isdigit "/s/steamapps/compatdata/220/pfx"
               = Some "220") by (vm_compute; reflexivity).
  destruct appimage_is_never_found as (_ & _ & H).
  exact (conj Ht (conj Hs
           (H ascii_isdigit
              (LaunchEnv true true
                 (Some (map (fun s => s +:+ ".AppImage") ["Doom"; "Quake"]))
                 false None true)
              "/s/steamapps/compatdata/220/pfx" ["Doom"; "Quake"]
              Ht eq_refl eq_refl eq_refl eq_refl))).
Defined.

(** With the Steam answer the same folder is started through Steam. *)
Example appimage_folder_through_steam :
  launch_game ascii_isdigit
    (LaunchEnv true true (Some ["Doom.AppImage"]) true None true)
    "/s/steamapps/compatdata/220/pfx"
  = Spawned ["xdg-open"; "steam://rungameid/220"] None.
Proof. vm_compute. reflexivity. Qed.

Lemma steam_id_digits (isdigit : string -> bool) (game_path steam_id : string) :
  steam_id_of isdigit game_path = Some steam_id -> isdigit steam_id = true.
Proof.
  unfold steam_id_of.
  destruct (PyOs.contains_str _ _); [|done].
  destruct (PyOs.split_str _ _) as [|? [|part ?]]; try done.
  destruct (isdigit _) eqn:Hd; [|done]. by intros [= <-].
Qed.

Lemma popen_spawned (w : launch_env) (argv argv' : list string)
    (cwd cwd' : option string) :
  popen w argv cwd = Spawned argv' cwd' ->
  popen_ok w = true /\ argv' = argv /\ cwd' = cwd.
Proof. unfold popen. destruct (popen_ok w); [|done]. by intros [= <- <-]. Qed.

(** X17.  What [launch_game] can start.  Whenever it spawns a process,
    the game path is set and exists, and the process is one of three:
    [xdg-open] with a [steam://rungameid/] address whose id is a
    non-empty text that [str.isdigit] accepts, read off the path, the
    user having chosen Steam; the game path itself, when it is not a
    directory; or a file of the game directory's listing whose name
    passes the executable test, started in its own directory.  Nothing
    else is ever started. *)
Theorem launch_spawns_only_known_targets
    (isdigit : string -> bool) (w : launch_env) (game_path : string)
    (argv : list string) (cwd : option string) :
  launch_game isdigit w game_path = Spawned argv cwd ->
  PyStr.truthy game_path = true /\ game_exists w = true /\ popen_ok w = true
  /\ ((exists steam_id,
         steam_id_of isdigit game_path = Some steam_id
         /\ through_steam w = true
         /\ isdigit steam_id = true
         /\ PyStr.truthy steam_id = true
         /\ argv = ["xdg-open"; "steam://rungameid/" +:+ steam_id]
         /\ cwd = None)
      \/ (game_isdir w = false /\ argv = [game_path]
          /\ cwd = Some (PyOs.dirname game_path))
      \/ (game_isdir w = true
          /\ exists names f,
               listdir w = Some names /\ f ∈ names
               /\ is_executable_name f = true
               /\ argv = [PyOs.join game_path f]
               /\ cwd = Some (PyOs.dirname (PyOs.join game_path f)))).
Proof.
  unfold launch_game.
  destruct (PyStr.truthy game_path); [|done].
  destruct (game_exists w); [|done]. simpl.
  assert (Hdirect : launch_direct w game_path = Spawned argv cwd ->
    popen_ok w = true
    /\ ((game_isdir w = false /\ argv = [game_path]
         /\ cwd = Some (PyOs.dirname game_path))
        \/ (game_isdir w = true
            /\ exists names f,
                 listdir w = Some names /\ f ∈ names
                 /\ is_executable_name f = true
                 /\ argv = [PyOs.join game_path f]
                 /\ cwd = Some (PyOs.dirname (PyOs.join game_path f))))).
  { unfold launch_direct. destruct (game_isdir w).
    - destruct (listdir w) as [names|]; [|done].
      destruct (filter _ names) as [|f1 [|f2 rest]] eqn:Hf; [done| |].
      + intros (Hp & -> & ->)%popen_spawned. split; [done|].
        right. split; [done|]. exists names, f1.
        assert (Hin : f1 ∈ filter (fun f => is_executable_name f = true) names)
          by (rewrite Hf; apply list_elem_of_here).
        apply list_elem_of_filter in Hin as [? ?]. done.
      + destruct (picked w) as [i|]; [|done].
        destruct ((f1 :: f2 :: rest) !! i) as [f|] eqn:Hi; [|done].
        destruct (PyStr.truthy f); [|done].
        intros (Hp & -> & ->)%popen_spawned. split; [done|].
        right. split; [done|]. exists names, f.
        assert (Hin : f ∈ filter (fun f => is_executable_name f = true) names)
          by (rewrite Hf; by apply list_elem_of_lookup_2 with i).
        apply list_elem_of_filter in Hin as [? ?]. done.
    - intros (Hp & -> & ->)%popen_spawned. split; [done|]. by left. }
  destruct (steam_id_of isdigit game_path) as [steam_id|] eqn:Hs.
  - destruct (PyStr.truthy steam_id) eqn:Hts; simpl.
    + destruct (through_steam w).
      * intros (Hp & -> & ->)%popen_spawned.
        split_and!; try done. left. exists steam_id.
        split_and!; try done. by apply steam_id_digits with game_path.
      * intros H. destruct (Hdirect H) as [Hp Hc].
        split_and!; try done. by right.
    + intros H. destruct (Hdirect H) as [Hp Hc].
      split_and!; try done. by right.
  - intros H. destruct (Hdirect H) as [Hp Hc].
    split_and!; try done. by right.
Qed.

Lemma launch_spawns_only_known_targets_witness :
  launch_game ascii_isdigit
    (LaunchEnv true true (Some ["a.txt"; "b.sh"; "c.exe"]) false (Some 1) true)
    "/games/doom"
  = Spawned ["/games/doom/c.exe"] (Some "/games/doom")
  /\ popen_ok
       (LaunchEnv true true (Some ["a.txt"; "b.sh"; "c.exe"]) false (Some 1) true)
     = true.
Proof.
  assert (H : launch_game ascii_isdigit
                (LaunchEnv true true (Some ["a.txt"; "b.sh"; "c.exe"]) false
                   (Some 1) true) "/games/doom"
              = Spawned ["/games/doom/c.exe"] (Some "/games/doom"))
    by (vm_compute; reflexivity).
  destruct (launch_spawns_only_known_targets _ _ _ _ _ H) as (_ & _ & Hp & _).
  exact (conj H Hp).
Defined.

(** * Names of installed payloads *)

Lemma rfind_lower_bound (c : ascii) (s : string) : (-1 <= PyStr.rfind c s)%Z.
Proof.
  induction s as [|d s IH]; simpl; [lia|].
  destruct (0 <=? PyStr.rfind c s)%Z eqn:H.
  - apply Z.leb_le in H. lia.
  - destruct (Ascii.eqb d c); lia.
Qed.

Lemma rfind_absent (c : ascii) (s : string) :
  (PyStr.rfind c s < 0)%Z -> PyStr.contains c s = false.
Proof.
  induction s as [|d s IH]; simpl; [done|].
  destruct (0 <=? PyStr.rfind c s)%Z eqn:H.
  - apply Z.leb_le in H. lia.
  - apply Z.leb_gt in H. destruct (Ascii.eqb d c); [lia|].
    intros _. by rewrite IH.
Qed.

Lemma substring_all (s : string) : String.substring 0 (String.length s) s = s.
Proof. induction s as [|c s IH]; [done|]. simpl. by rewrite IH. Qed.

Lemma substring_split (k : nat) (s : string) :
  String.substring 0 k s +:+ String.substring k (String.length s - k) s = s.
Proof.
  revert k. induction s as [|c s IH]; intros [|k]; try done.
  - simpl. by rewrite substring_all.
  - change (String c (String.substring 0 k s
                      +:+ String.substring k (String.length s - k) s)
            = String c s).
    by rewrite IH.
Qed.

Lemma basename_cons (c : ascii) (s : string) :
  PyStr.basename (String c s)
  = if (0 <=? PyStr.rfind "/" s)%Z then PyStr.basename s
    else if Ascii.eqb c "/" then s else String c s.
Proof.
  unfold PyStr.basename, PyStr.slice_from.
  pose proof (rfind_lower_bound "/" s) as Hb.
  simpl PyStr.rfind.
  destruct (0 <=? PyStr.rfind "/" s)%Z eqn:H.
  - apply Z.leb_le in H.
    replace (Z.to_nat (PyStr.rfind "/" s + 1 + 1))
      with (S (Z.to_nat (PyStr.rfind "/" s + 1))) by lia.
    reflexivity.
  - apply Z.leb_gt in H. destruct (Ascii.eqb c "/"); simpl.
    + rewrite Nat.sub_0_r. apply substring_all.
    + by rewrite substring_all.
Qed.

Lemma basename_no_slash (p : string) :
  PyStr.contains "/" (PyStr.basename p) = false.
Proof.
  induction p as [|c s IH]; [done|]. rewrite basename_cons.
  destruct (0 <=? PyStr.rfind "/" s)%Z eqn:H; [exact IH|].
  apply Z.leb_gt in H. pose proof (rfind_absent "/" s H) as Hs.
  destruct (Ascii.eqb c "/") eqn:Hc; [exact Hs|].
  simpl. by rewrite Hc, Hs.
Qed.

Lemma append_empty (s : string) : s +:+ EmptyString = s.
Proof.
  induction s as [|c s IH]; [done|].
  change (String c (s +:+ EmptyString) = String c s). by rewrite IH.
Qed.

Lemma splitext_joins (f : string) :
  fst (PyStr.splitext f) +:+ snd (PyStr.splitext f) = f.
Proof.
  unfold PyStr.splitext.
  destruct (PyStr.rfind "/" f <? PyStr.rfind "." f)%Z eqn:H.
  - destruct (forallb _ _); cbn [fst snd].
    + apply append_empty.
    + unfold PyStr.slice, PyStr.slice_from. rewrite Z.sub_0_r.
      apply substring_split.
  - cbn [fst snd]. apply append_empty.
Qed.

(** X18.  Every entry an install creates names its payload by a plain
    file name: the [file_path] is the part of the source path after its
    last ['/'] and so contains no ['/'], whatever the source path; for a
    file mod the [name] followed by the extension that was split off is
    that file name again, and for a folder mod [name] and [file_path]
    are the same. *)
Theorem installed_payload_has_plain_name (count : nat) (p : string) :
  PyStr.contains "/" (file_path (file_entry count p)) = false
  /\ name (file_entry count p) +:+ snd (PyStr.splitext (PyStr.basename p))
     = file_path (file_entry count p)
  /\ PyStr.contains "/" (file_path (folder_entry count p)) = false
  /\ name (folder_entry count p) = file_path (folder_entry count p).
Proof.
  simpl. split_and!.
  - apply basename_no_slash.
  - apply splitext_joins.
  - apply basename_no_slash.
  - reflexivity.
Qed.

(** * The listing of the file dialog *)

Lemma insert_item_Forall (P : dir_item -> Prop) (x : dir_item)
    (l : list dir_item) :
  P x -> Forall P l -> Forall P (insert_item x l).
Proof.
  intros Hx. induction 1 as [|y l Hy Hl IH]; simpl.
  - by repeat constructor.
  - destruct (key_lt _ _); by repeat constructor.
Qed.

Lemma insert_item_perm (x : dir_item) (l : list dir_item) :
  insert_item x l ≡ₚ x :: l.
Proof.
  induction l as [|y l IH]; simpl; [done|].
  destruct (key_lt _ _); [|done].
  rewrite IH. apply perm_swap.
Qed.

Lemma insert_item_split (x : dir_item) (ds fs : list dir_item) :
  Forall (fun y => item_is_dir y = true) ds ->
  Forall (fun y => item_is_dir y = false) fs ->
  exists ds' fs',
    insert_item x (ds ++ fs) = ds' ++ fs'
    /\ Forall (fun y => item_is_dir y = true) ds'
    /\ Forall (fun y => item_is_dir y = false) fs'.
Proof.
  intros Hds Hfs. induction Hds as [|y ds Hy Hds IH].
  - simpl. destruct (item_is_dir x) eqn:Hx.
    + exists [x], fs. split_and!; [|by repeat constructor|done].
      destruct Hfs as [|z fs Hz Hfs]; [done|]. simpl.
      unfold key_lt, item_key, bool_lt. simpl. by rewrite Hz, Hx.
    + exists [], (insert_item x fs). split_and!; [done|constructor|].
      by apply insert_item_Forall.
  - simpl. destruct (key_lt (item_key y) (item_key x)) eqn:Hk.
    + destruct IH as (ds' & fs' & -> & Hd' & Hf').
      exists (y :: ds'), fs'. split_and!; [done|by constructor|done].
    + exists (x :: y :: ds), fs. split_and!; [done| |done].
      constructor; [|by constructor].
      unfold key_lt, item_key, bool_lt in Hk. simpl in Hk.
      rewrite Hy in Hk. simpl in Hk.
      destruct (item_is_dir x); [done|]. simpl in Hk. discriminate.
Qed.

(** X19.  The file dialog lists directories before files: whatever the
    directory holds and in whatever order [os.listdir] gives it, the
    sorted listing is a rearrangement of the items read, made of a run of
    directories followed by a run of files. *)
Theorem listing_puts_directories_first (items : list dir_item) :
  sort_items items ≡ₚ items
  /\ exists dirs files,
       sort_items items = dirs ++ files
       /\ Forall (fun y => item_is_dir y = true) dirs
       /\ Forall (fun y => item_is_dir y = false) files.
Proof.
  unfold sort_items. induction items as [|x items [IHp (ds & fs & IHs & Hd & Hf)]].
  - split; [done|]. exists [], []. by repeat constructor.
  - simpl. split.
    + by rewrite insert_item_perm, IHp.
    + rewrite IHs. by apply insert_item_split.
Qed.

(** * The setup script *)

(** X20.  [check_python_version] lets the setup go on exactly for Python
    3.7 and later: with [version_info] starting with [major] and [minor],
    the script exits with code 1 unless [major > 3], or [major = 3] and
    [minor >= 7]; what follows the minor version plays no part. *)
Theorem python_version_gate (major minor : Z) (rest : list Z) :
  check_python_version (major :: minor :: rest)
  = if ((3 <? major)%Z || ((major =? 3)%Z && (7 <=? minor)%Z))%bool
    then GoOn else Exit 1.
Proof.
  unfold check_python_version, REQUIRED_PYTHON.
  assert (Hr : tuple_lt rest [] = false) by (by destruct rest).
  cbn [tuple_lt]. rewrite Hr, andb_false_r, orb_false_r.
  destruct (Z.ltb_spec major 3), (Z.eqb_spec major 3), (Z.ltb_spec 3 major),
    (Z.ltb_spec minor 7), (Z.leb_spec 7 minor);
    simpl; try reflexivity; lia.
Qed.
